(** * timekeep: a shallow embedding of [timekeep.py] and its specification

    The program keeps one SQLite table, [time_entries], and offers three
    commands: [start], [stop] and [hours].  The embedding follows the
    source function by function:

    - the database file is a value of type [database]: either the file has
      no [time_entries] table yet, or it has one with its rows and its
      AUTOINCREMENT counter;
    - every function takes the database (and the value [datetime.now()]
      returns during the call) and gives back a [result]: how the call ended,
      what it printed, and the database it leaves behind;
    - the SQL statements are written as list operations on the rows, in
      rowid order, with the limits SQLite has: rowids are 64-bit, and the
      date functions give NULL outside the range of dates they know;
    - the numbers of the [hours] query are IEEE 754 doubles: a double is
      the rational it denotes, and every operation is the exact operation
      followed by rounding to the nearest double;
    - a [str] is the string of the bytes of its UTF-8 encoding, which is
      how SQLite stores, compares and orders TEXT.

    The embedding covers the runs in which the file can be opened and
    written and no other process works on it in between; [main] starts
    from the command line as [argparse] has parsed it. *)

From Stdlib Require Import ZArith QArith Qround Qabs Qpower Lqa Lia Ascii.
From Stdlib Require Import DecimalString DecimalZ DecimalPos.
From stdpp Require Import base list strings numbers sorting.

Open Scope Z_scope.

(** ** Doubles *)

(** [2^e] as a rational, for every integer [e]. *)
Definition Qpow2 (e : Z) : Q := Qpower 2 e.

(** The exponent of a non-zero rational: the [e] with [2^e <= |x| < 2^(e+1)]. *)
Definition ilog2 (x : Q) : Z :=
  let e := Z.log2 (Z.abs (Qnum x)) - Z.log2 (Zpos (Qden x)) in
  if Qle_bool (Qpow2 e) (Qabs x) then e else e - 1.

(** Rounding to the nearest integer, ties to the even one. *)
Definition round_half_even (x : Q) : Z :=
  let n := Qfloor x in
  match Qcompare (x - inject_Z n) (1 # 2) with
  | Lt => n
  | Gt => n + 1
  | Eq => if Z.even n then n else n + 1
  end.

(** Rounding to the nearest double (53 significant bits, ties to even).
    The exponent is not bounded: the values of this program stay far from
    the largest and the smallest double. *)
Definition RN (x : Q) : Q :=
  if Qeq_bool x 0 then 0%Q
  else
    let e := ilog2 x - 52 in
    Qred (inject_Z (round_half_even (x / Qpow2 e)) * Qpow2 e).

Definition fadd (x y : Q) : Q := RN (x + y).
Definition fsub (x y : Q) : Q := RN (x - y).
Definition fmul (x y : Q) : Q := RN (x * y).
Definition fdiv (x y : Q) : Q := RN (x / y).

(** ** Python values *)

(** [str(n)] for an [int]. *)
Definition str (n : Z) : string := NilZero.string_of_int (Z.to_int n).

(** [s.zfill(width)]: pad with zeros on the left up to [width] characters,
    after the sign when the text starts with one. *)
Definition zfill (width : nat) (s : string) : string :=
  let fill := (width - String.length s)%nat in
  match fill with
  | O => s
  | _ =>
      let zeros := String.string_of_list_ascii (replicate fill "0"%char) in
      match s with
      | String c rest =>
          if (Ascii.eqb c "-"%char || Ascii.eqb c "+"%char)%bool
          then String c (zeros +:+ rest)
          else zeros +:+ s
      | EmptyString => zeros
      end
  end.

(** The format [.2f] of an f-string, applied to a double: the exact value
    rounded to two decimals, ties to even, and the sign of [x] kept even
    when the rounded magnitude is zero. *)
Definition format_2f (x : Q) : string :=
  let n := Z.abs (round_half_even (x * 100)%Q) in
  (if Qlt_le_dec x 0 then "-" else "")
  +:+ str (n / 100) +:+ "." +:+ zfill 2 (str (n mod 100)).

(** The calendar of [datetime]: leap years and the days of a month. *)
Definition is_leap (y : Z) : bool :=
  (y mod 4 =? 0) && (negb (y mod 100 =? 0) || (y mod 400 =? 0)).

Definition days_in_month (y m : Z) : Z :=
  match m with
  | 1 | 3 | 5 | 7 | 8 | 10 | 12 => 31
  | 4 | 6 | 9 | 11 => 30
  | 2 => if is_leap y then 29 else 28
  | _ => 0
  end.

(** The checks of the [datetime] constructor. *)
Definition datetime_ok (y mo d h mi s us : Z) : bool :=
  (1 <=? y) && (y <=? 9999) && (1 <=? mo) && (mo <=? 12)
  && (1 <=? d) && (d <=? days_in_month y mo)
  && (0 <=? h) && (h <=? 23) && (0 <=? mi) && (mi <=? 59)
  && (0 <=? s) && (s <=? 59) && (0 <=? us) && (us <=? 999999).

(** [datetime.datetime]: a naive local wall-clock time; only the values
    the constructor accepts exist.  The program stores
    [datetime.now().isoformat()] in the TIMESTAMP columns; a stored text is
    represented by the datetime it denotes. *)
Record datetime : Type := mk_datetime {
  year : Z;
  month : Z;
  day : Z;
  hour : Z;
  minute : Z;
  second : Z;
  microsecond : Z;
  datetime_checked :
    datetime_ok year month day hour minute second microsecond = true
}.

#[global] Instance datetime_eq_dec : EqDecision datetime.
Proof.
  intros [y1 mo1 d1 h1 mi1 s1 us1 p1] [y2 mo2 d2 h2 mi2 s2 us2 p2].
  destruct (decide ((y1, mo1, d1, h1, mi1, s1, us1)
                    = (y2, mo2, d2, h2, mi2, s2, us2))) as [E | NE].
  - left. injection E as -> -> -> -> -> -> ->.
    f_equal. apply proof_irrel.
  - right. intros E. apply NE. by injection E as -> -> -> -> -> -> ->.
Defined.

(** [d.toordinal()]: the day number of the date, 1 for 0001-01-01. *)
Definition days_before_year (y : Z) : Z :=
  (y - 1) * 365 + (y - 1) / 4 - (y - 1) / 100 + (y - 1) / 400.

Definition days_before_month (y m : Z) : Z :=
  match m with
  | 1 => 0 | 2 => 31 | 3 => 59 | 4 => 90 | 5 => 120 | 6 => 151
  | 7 => 181 | 8 => 212 | 9 => 243 | 10 => 273 | 11 => 304 | _ => 334
  end
  + (if (2 <? m) && is_leap y then 1 else 0).

Definition toordinal (d : datetime) : Z :=
  days_before_year (year d) + days_before_month (year d) (month d) + day d.

(** [(t2 - t1)] as a [timedelta], in microseconds, and in hours. *)
Definition timedelta_us (t1 t2 : datetime) : Z :=
  ((toordinal t2 - toordinal t1) * 86400
   + (hour t2 * 3600 + minute t2 * 60 + second t2)
   - (hour t1 * 3600 + minute t1 * 60 + second t1)) * 1000000
  + (microsecond t2 - microsecond t1).

Definition elapsed_hours (t1 t2 : datetime) : Q :=
  inject_Z (timedelta_us t1 t2) / 3600000000.

(** ** SQLite's date functions *)

(** The seconds of a date text, as SQLite reads them: the whole seconds
    plus the digits after the point divided by their scale, in doubles. *)
Definition sqlite_seconds (ts : datetime) : Q :=
  fadd (inject_Z (second ts)) (fdiv (inject_Z (microsecond ts)) 1000000).

(** The Julian day of a date text in milliseconds ([computeJD]): the day
    from the Gregorian calendar, in integers, and the time of the day with
    the seconds rounded to the millisecond. *)
Definition iJD (ts : datetime) : Z :=
  let Y := if month ts <=? 2 then year ts - 1 else year ts in
  let M := if month ts <=? 2 then month ts + 12 else month ts in
  let A := Y ÷ 100 in
  let B := 2 - A + A ÷ 4 in
  let X1 := (36525 * (Y + 4716)) ÷ 100 in
  let X2 := (306001 * (M + 1)) ÷ 10000 in
  (2 * (X1 + X2 + day ts + B) - 3049) * 43200000
  + hour ts * 3600000 + minute ts * 60000
  + Qfloor (fadd (fmul (sqlite_seconds ts) 1000) (1 # 2)).

(** The Julian days SQLite accepts: up to 9999-12-31 23:59:59.999. *)
Definition validJulianDay (i : Z) : bool :=
  (0 <=? i) && (i <=? 464269060799999).

(** What the date functions make of a stored timestamp: its Julian day in
    milliseconds, or nothing (they then return NULL). *)
Definition isDate (ts : datetime) : option Z :=
  if validJulianDay (iJD ts) then Some (iJD ts) else None.

(** [julianday(ts)]: the Julian day in days, a double. *)
Definition julianday (ts : datetime) : option Q :=
  (fun i => fdiv (inject_Z i) 86400000) <$> isDate ts.

(** [strftime('%m', ts)]: the month as two digits. *)
Definition strftime_m (ts : datetime) : option string :=
  (fun _ => zfill 2 (str (month ts))) <$> isDate ts.

(** ** The table *)

Module time_entries.
(** One row of
    [time_entries(id INTEGER PRIMARY KEY AUTOINCREMENT, label TEXT NOT NULL,
                  start_time TIMESTAMP, end_time TIMESTAMP)];
    [None] is SQL's NULL. *)
Record row : Type := mk_row {
  id : Z;
  label : string;
  start_time : option datetime;
  end_time : option datetime
}.
End time_entries.

Abbreviation row := time_entries.row.

(** The table with its rows in rowid order and the [sqlite_sequence]
    counter that AUTOINCREMENT maintains (the largest rowid handed out so
    far). *)
Record table : Type := mk_table {
  rows : list row;
  seq : Z
}.

(** The file at [DB_PATH]: [None] while it has no [time_entries] table. *)
Definition database : Type := option table.

(** ** How a call ends *)

(** The exceptions the program can meet: [sqlite3.OperationalError] (the
    statement names a table the file does not have, or the table takes no
    more rows) and [TypeError] (a NULL sum put through the format [.2f]). *)
Inductive exception : Type :=
| OperationalError
| TypeError.

Inductive outcome : Type :=
| Returned
| SystemExit (code : Z)
| Raised (e : exception).

Record result : Type := mk_result {
  status : outcome;
  stdout : list string;
  db : database
}.

(** The status the process ends with: 0 when [main] returns, the argument
    of [sys.exit], and 1 for an exception nobody caught. *)
Definition exit_code (o : outcome) : Z :=
  match o with
  | Returned => 0
  | SystemExit c => c
  | Raised _ => 1
  end.

(** ** SQL building blocks *)

(** [WHERE label = ? AND end_time IS NULL] *)
Definition active (l : string) (e : row) : Prop :=
  time_entries.label e = l ∧ time_entries.end_time e = None.

#[global] Instance active_dec l e : Decision (active l e).
Proof. unfold active. apply _. Defined.

(** The largest rowid: [2^63 - 1]. *)
Definition MAX_ROWID : Z := 9223372036854775807.

(** The largest rowid in the table, when it has a row. *)
Definition last_rowid (rs : list row) : option Z :=
  match rs with
  | [] => None
  | e :: rs' =>
      Some (foldr (fun e m => Z.max (time_entries.id e) m)
                  (time_entries.id e) rs')
  end.

(** The rowid AUTOINCREMENT picks for a new row: one more than the largest
    rowid in the table, and more than the largest rowid ever handed out;
    none when either has reached [MAX_ROWID] (the INSERT then fails with
    SQLITE_FULL). *)
Definition new_rowid (t : table) : option Z :=
  match last_rowid (rows t) with
  | Some k =>
      if (MAX_ROWID <=? k) || (seq t =? MAX_ROWID) then None
      else Some (Z.max (k + 1) (seq t + 1))
  | None =>
      if seq t =? MAX_ROWID then None else Some (Z.max 1 (seq t + 1))
  end.

(** [INSERT INTO time_entries (label, start_time) VALUES (?, ?)] *)
Definition insert_entry (l : string) (s : datetime) (t : table) : option table :=
  i ← new_rowid t;
  Some {| rows := rows t ++ [time_entries.mk_row i l (Some s) None];
          seq := i |}.

(** [UPDATE time_entries SET end_time = ? WHERE label = ? AND end_time IS NULL] *)
Definition set_end_time (l : string) (now : datetime) (e : row) : row :=
  if decide (active l e)
  then time_entries.mk_row (time_entries.id e) (time_entries.label e)
                           (time_entries.start_time e) (Some now)
  else e.

Definition update_end_time (l : string) (now : datetime) (t : table) : table :=
  {| rows := set_end_time l now <$> rows t; seq := seq t |}.

(** [c.rowcount] after the UPDATE: the rows its WHERE clause matched. *)
Definition rowcount (l : string) (t : table) : nat :=
  length (filter (active l) (rows t)).

(** The aggregate [SUM] over doubles: it adds the values that are not NULL
    in the order the rows come, and is NULL when there was none.  This is
    the plain running sum of SQLite up to 3.43; later versions carry a
    compensation term, which can change the last bits of a sum of several
    values. *)
Record SumCtx : Type := mk_SumCtx {
  rSum : Q;
  cnt : Z
}.

Definition sumInit : SumCtx := mk_SumCtx 0 0.

Definition sumStep (p : SumCtx) (v : option Q) : SumCtx :=
  match v with
  | Some x => mk_SumCtx (fadd (rSum p) x) (cnt p + 1)
  | None => p
  end.

Definition sumFinalize (p : SumCtx) : option Q :=
  if 0 <? cnt p then Some (rSum p) else None.

Definition sql_sum (vs : list (option Q)) : option Q :=
  sumFinalize (foldl sumStep sumInit vs).

(** [(julianday(end_time) - julianday(start_time)) * 24]: NULL when one of
    the Julian days is. *)
Definition hours_between (s f : datetime) : option Q :=
  a ← julianday f;
  b ← julianday s;
  Some (fmul (fsub a b) 24).

(** The WHERE clause and the summand of the [hours] query for one row:
    [WHERE strftime('%m', start_time) = ? AND end_time IS NOT NULL].
    A NULL [start_time], or one [strftime] cannot read, makes the
    comparison NULL, which selects nothing. *)
Definition select_hours (param : string) (e : row)
  : option (string * option Q) :=
  match time_entries.start_time e, time_entries.end_time e with
  | Some s, Some f =>
      match strftime_m s with
      | Some mm =>
          if String.eqb mm param
          then Some (time_entries.label e, hours_between s f)
          else None
      | None => None
      end
  | _, _ => None
  end.

(** [GROUP BY label] with [SUM]: one group per label, each fed with the
    values of its rows in rowid order. *)
Fixpoint add_to_group (l : string) (v : option Q)
    (groups : list (string * SumCtx)) : list (string * SumCtx) :=
  match groups with
  | [] => [(l, sumStep sumInit v)]
  | (l', p) :: groups' =>
      if String.eqb l' l
      then (l', sumStep p v) :: groups'
      else (l', p) :: add_to_group l v groups'
  end.

Definition group_by_label (xs : list (string * option Q))
  : list (string * SumCtx) :=
  foldl (fun groups x => add_to_group (fst x) (snd x) groups) [] xs.

(** The SELECT of [get_hours] followed by [c.fetchall()]: the groups come
    out in the order of their labels (compared byte by byte). *)
Definition fetch_hours (month : Z) (t : table) : list (string * option Q) :=
  (fun g => (fst g, sumFinalize (snd g)))
    <$> merge_sort (fun g1 g2 => (fst g1 ≤ fst g2)%string)
          (group_by_label
             (omap (select_hours (zfill 2 (str month))) (rows t))).

(** ** The store operations *)

(** [init_db()]: CREATE TABLE IF NOT EXISTS. *)
Definition init_db (d : database) : result :=
  match d with
  | None => mk_result Returned [] (Some (mk_table [] 0))
  | Some t => mk_result Returned [] (Some t)
  end.

(** [start_time(label)], with [now] the value of [datetime.now()]. *)
Definition start_time (label : string) (now : datetime) (d : database) : result :=
  match d with
  | None => mk_result (Raised OperationalError) [] d
  | Some t =>
      match filter (active label) (rows t) with
      | _ :: _ =>
          mk_result Returned
            ["Error: Active session already exists for label '" +:+ label +:+ "'"]
            d
      | [] =>
          match insert_entry label now t with
          | Some t' =>
              mk_result Returned
                ["Started timing for '" +:+ label +:+ "'"]
                (Some t')
          | None => mk_result (Raised OperationalError) [] d
          end
      end
  end.

(** [stop_time(label)], with [now] the value of [datetime.now()]. *)
Definition stop_time (label : string) (now : datetime) (d : database) : result :=
  match d with
  | None => mk_result (Raised OperationalError) [] d
  | Some t =>
      let t' := update_end_time label now t in
      if Nat.eqb (rowcount label t) 0
      then mk_result Returned
             ["Error: No active session found for label '" +:+ label +:+ "'"]
             (Some t')
      else mk_result Returned
             ["Stopped timing for '" +:+ label +:+ "'."]
             (Some t')
  end.

(** The loop of [get_hours] over the fetched rows: one line per row, until
    a row whose sum is NULL makes the f-string raise. *)
Fixpoint print_hours (results : list (string * option Q))
  : outcome * list string :=
  match results with
  | [] => (Returned, [])
  | (l, Some h) :: rest =>
      let r := print_hours rest in
      (fst r, (l +:+ ": " +:+ format_2f h +:+ " hours") :: snd r)
  | (l, None) :: _ => (Raised TypeError, [])
  end.

(** [get_hours(month)] *)
Definition get_hours (month : Z) (d : database) : result :=
  match d with
  | None => mk_result (Raised OperationalError) [] d
  | Some t =>
      match fetch_hours month t with
      | [] => mk_result Returned ["No entries found for month " +:+ str month] d
      | results =>
          let r := print_hours results in
          mk_result (fst r)
            ([String "010" "Hours for month " +:+ str month +:+ ":";
              "------------------------------"] ++ snd r)
            d
      end
  end.

(** ** The command line *)

Inductive action : Type := start | stop | hours.

Module args.
(** What [parser.parse_args()] returns. *)
Record Namespace : Type := mk_Namespace {
  action : action;
  label : string;
  month : Z
}.
End args.

(** The defaults of [parse_args]: [-l] defaults to ["work"] and [-m] to
    the month of [datetime.now()], read when the parser is built. *)
Definition parse_args (a : action) (l : option string) (m : option Z)
    (today : datetime) : args.Namespace :=
  args.mk_Namespace a (default "work" l) (default (month today) m).

(** [main()], from the parsed command line on. *)
Definition main (a : args.Namespace) (now : datetime) (d : database) : result :=
  let d := db (init_db d) in
  match args.action a with
  | start =>
      if String.eqb (args.label a) ""
      then mk_result (SystemExit 1)
             ["Error: Label (-l) is required for start action"] d
      else start_time (args.label a) now d
  | stop =>
      if String.eqb (args.label a) ""
      then mk_result (SystemExit 1)
             ["Error: Label (-l) is required for stop action"] d
      else stop_time (args.label a) now d
  | hours =>
      if (Z.eqb (args.month a) 0
          || negb (Z.leb 1 (args.month a) && Z.leb (args.month a) 12))%bool
      then mk_result (SystemExit 1)
             ["Error: Valid month (-m) is required for hours action"] d
      else get_hours (args.month a) d
  end.

(** * Vocabulary of the specification *)

(** The rows of [t'] against the rows of [t] at the same position: how many
    had a NULL [end_time] and have a value now. *)
Definition newly_closed (t t' : table) : nat :=
  length (filter (fun p => time_entries.end_time (fst p) = None
                           ∧ time_entries.end_time (snd p) ≠ None)
                 (zip (rows t) (rows t'))).

(** A stop that is careful about several open rows of one label: it closes
    exactly one of them, or what it reports differs from the report of an
    ordinary stop. *)
Definition stop_is_defensive (l : string) (now : datetime) (t : table) : Prop :=
  let r := stop_time l now (Some t) in
  (∃ t', db r = Some t' ∧ newly_closed t t' = 1%nat)
  ∨ status r ≠ Returned
  ∨ stdout r ≠ ["Stopped timing for '" +:+ l +:+ "'."].

(** The invariants of the data model: at most one open session per label,
    and a row whose [end_time] is set stays as it is (same position, same
    fields) from one store state to the next. *)
Definition one_open_per_label (t : table) : Prop :=
  ∀ l, (length (filter (active l) (rows t)) ≤ 1)%nat.

Definition end_times_kept (t t' : table) : Prop :=
  ∀ i e, rows t !! i = Some e → time_entries.end_time e ≠ None →
         rows t' !! i = Some e.

(** The table takes no more rows: the largest rowid was handed out, or is
    in the table. *)
Definition rowids_exhausted (t : table) : Prop :=
  seq t = MAX_ROWID ∨ ∃ e, e ∈ rows t ∧ MAX_ROWID ≤ time_entries.id e.

(** ** The report in the words of the specification *)

(** A timestamp the date functions can read: every time before
    9999-12-31 23:59:59.9995. *)
Definition readable (ts : datetime) : Prop := isDate ts ≠ None.

(** An entry counts for month [m] when its [end_time] is present and its
    [start_time] is readable and in month [m]; the year plays no part. *)
Definition closed_in_month (m : Z) (e : row) : Prop :=
  match time_entries.start_time e with
  | Some s => readable s ∧ month s = m
  | None => False
  end
  ∧ time_entries.end_time e ≠ None.

#[global] Instance closed_in_month_dec m e : Decision (closed_in_month m e).
Proof.
  unfold closed_in_month, readable.
  destruct (time_entries.start_time e); apply _.
Defined.

(** What a closed entry contributes: its hours as the query computes them,
    NULL when the date functions cannot read its [end_time]. *)
Definition entry_hours (e : row) : option Q :=
  s ← time_entries.start_time e;
  f ← time_entries.end_time e;
  hours_between s f.

(** The hours of label [l] in month [m]: the SUM over the entries that
    count, in rowid order. *)
Definition total_hours (m : Z) (l : string) (t : table) : option Q :=
  sql_sum (entry_hours
             <$> filter (fun e => closed_in_month m e ∧ time_entries.label e = l)
                        (rows t)).

(** The Julian day of a timestamp in hours, exactly. *)
Definition exact_hours_of (d : datetime) : Q :=
  ((2 * inject_Z (toordinal d) + 3442849) * 12
   + inject_Z (hour d) + inject_Z (minute d) * (1 # 60)
   + inject_Z (second d) * (1 # 3600)
   + inject_Z (microsecond d) * (1 # 3600000000))%Q.

(** The values paired with [l], in order. *)
Definition values_for (l : string) (xs : list (string * option Q))
  : list (option Q) :=
  snd <$> filter (fun x => fst x = l) xs.

(** What the groups built from the rows [xs] look like: one group per
    label of [xs], fed with that label's values in order. *)
Definition groups_of (groups : list (string * SumCtx))
    (xs : list (string * option Q)) : Prop :=
  NoDup (groups.*1)
  ∧ (∀ k, k ∈ (groups.*1) ↔ k ∈ (xs.*1))
  ∧ (∀ k p, (k, p) ∈ groups → p = foldl sumStep sumInit (values_for k xs)).

(** ** Further vocabulary *)

(** The primary key: no two rows share an id. *)
Definition rowids_unique (t : table) : Prop :=
  NoDup (time_entries.id <$> rows t).

(** The command lines [main] turns away before it calls a store function:
    an empty label for [start] and [stop], a month that is 0 or outside
    1..12 for [hours]. *)
Definition rejected (a : args.Namespace) : Prop :=
  match args.action a with
  | hours => ¬ (1 ≤ args.month a ≤ 12)
  | _ => args.label a = ""
  end.

(** One process after the other on the same file, each with its parsed
    command line and the time it reads. *)
Definition run (cmds : list (args.Namespace * datetime)) (d : database)
  : database :=
  foldl (fun d c => db (main (fst c) (snd c) d)) d cmds.

(** What a store function may do to a row that exists: nothing to its id,
    label and [start_time]. *)
Definition same_identity (e e' : row) : Prop :=
  time_entries.id e' = time_entries.id e
  ∧ time_entries.label e' = time_entries.label e
  ∧ time_entries.start_time e' = time_entries.start_time e.

(** ** Sample data *)

Definition at_0900 : datetime := mk_datetime 2024 7 1 9 0 0 0 eq_refl.
Definition at_0907 : datetime := mk_datetime 2024 7 1 9 7 30 0 eq_refl.
Definition at_1130 : datetime := mk_datetime 2024 7 1 11 30 0 0 eq_refl.
Definition at_0900_2023 : datetime := mk_datetime 2023 7 3 9 0 0 0 eq_refl.
Definition at_1400_2023 : datetime := mk_datetime 2023 7 3 14 0 0 0 eq_refl.
Definition in_june : datetime := mk_datetime 2024 6 30 22 0 0 0 eq_refl.
Definition in_august : datetime := mk_datetime 2024 8 2 8 0 0 0 eq_refl.

Definition last_instant : datetime :=
  mk_datetime 9999 12 31 23 59 59 999600 eq_refl.
Definition very_last_instant : datetime :=
  mk_datetime 9999 12 31 23 59 59 999900 eq_refl.

Definition store_open_work : table :=
  mk_table [time_entries.mk_row 1 "work" (Some at_0900) None] 1.

Definition store_closed_work : table :=
  mk_table [time_entries.mk_row 1 "work" (Some at_0900) (Some at_1130)] 1.

Definition store_closed_writing : table :=
  mk_table [time_entries.mk_row 1 "writing" (Some at_0900) (Some at_1130)] 1.

Definition store_two_open : table :=
  mk_table [time_entries.mk_row 1 "work" (Some at_0900) None;
            time_entries.mk_row 2 "work" (Some at_0900) None] 2.

(** A session left open in June. *)
Definition store_open_since_june : table :=
  mk_table [time_entries.mk_row 1 "work" (Some in_june) None] 1.

(** A table that holds a row with the largest rowid. *)
Definition store_full : table :=
  mk_table [time_entries.mk_row MAX_ROWID "work" (Some at_0900) (Some at_1130)]
           MAX_ROWID.

(** A closed session that started in the last millisecond of year 9999. *)
Definition store_year_end : table :=
  mk_table [time_entries.mk_row 1 "work" (Some last_instant)
                                (Some very_last_instant)] 1.

(** Closed sessions of two labels in July of two years, one in August and
    one that is still open. *)
Definition store_history : table :=
  mk_table [time_entries.mk_row 1 "work" (Some at_0900_2023) (Some at_1400_2023);
            time_entries.mk_row 2 "writing" (Some at_0900) (Some at_1130);
            time_entries.mk_row 3 "work" (Some at_0900) (Some at_1130);
            time_entries.mk_row 4 "work" (Some in_august) (Some in_august);
            time_entries.mk_row 5 "reading" (Some at_0900) None] 5.

(** * Properties *)

(** ** Rounding *)

Lemma Qpow2_pos (e : Z) : (0 < Qpow2 e)%Q.
Proof. unfold Qpow2. apply Qpower_0_lt. reflexivity. Qed.

Lemma Qpow2_add (a b : Z) : (Qpow2 (a + b) == Qpow2 a * Qpow2 b)%Q.
Proof. unfold Qpow2. apply Qpower_plus. discriminate. Qed.

Lemma Qpow2_nonneg (e : Z) : 0 ≤ e → (Qpow2 e == inject_Z (2 ^ e))%Q.
Proof.
  intros He. unfold Qpow2. destruct e as [| p | p]; [reflexivity | | lia].
  rewrite Zpower_Qpower by lia. reflexivity.
Qed.

Lemma round_half_even_error (y : Q) :
  (Qabs (inject_Z (round_half_even y) - y) <= 1 # 2)%Q.
Proof.
  unfold round_half_even.
  pose proof (Qfloor_le y) as Hlo. pose proof (Qlt_floor y) as Hhi.
  rewrite inject_Z_plus in Hhi. change (inject_Z 1) with 1%Q in Hhi.
  apply Qabs_Qle_condition.
  destruct (Qcompare_spec (y - inject_Z (Qfloor y)) (1 # 2)) as [E | E | E].
  - destruct (Z.even (Qfloor y));
      [| rewrite inject_Z_plus; change (inject_Z 1) with 1%Q]; split; lra.
  - split; lra.
  - rewrite inject_Z_plus. change (inject_Z 1) with 1%Q. split; lra.
Qed.

Lemma ilog2_lower (x : Q) : ¬ (x == 0)%Q → (Qpow2 (ilog2 x) <= Qabs x)%Q.
Proof.
  intros Hx. unfold ilog2.
  set (n := Z.abs (Qnum x)). set (d := Zpos (Qden x)).
  set (e := Z.log2 n - Z.log2 d).
  destruct (Qle_bool (Qpow2 e) (Qabs x)) eqn:E.
  - by apply Qle_bool_iff.
  - assert (Hn : 0 < n).
    { unfold n. destruct x as [[| p | p] q]; simpl; try lia.
      destruct Hx. reflexivity. }
    assert (Hd : 0 < d) by (unfold d; lia).
    pose proof (Z.log2_spec n Hn) as [Hn1 _].
    pose proof (Z.log2_spec d Hd) as [_ Hd2].
    pose proof (Z.log2_nonneg n). pose proof (Z.log2_nonneg d).
    (* 2^(e-1) * 2^(log2 d + 1) = 2^(log2 n) *)
    assert (Hsplit : (Qpow2 (e - 1) * Qpow2 (Z.succ (Z.log2 d))
                      == Qpow2 (Z.log2 n))%Q).
    { rewrite <- Qpow2_add. unfold e.
      replace (Z.log2 n - Z.log2 d - 1 + Z.succ (Z.log2 d)) with (Z.log2 n)
        by lia. reflexivity. }
    rewrite (Qpow2_nonneg (Z.succ (Z.log2 d))) in Hsplit by lia.
    rewrite (Qpow2_nonneg (Z.log2 n)) in Hsplit by lia.
    assert (Habs : (Qabs x == inject_Z n / inject_Z d)%Q).
    { unfold n, d. destruct x as [a q]. simpl. apply Qmake_Qdiv. }
    rewrite Habs.
    pose proof (Qpow2_pos (e - 1)) as Hp.
    assert (HdQ : (0 < inject_Z d)%Q) by (change 0%Q with (inject_Z 0); rewrite <- Zlt_Qlt; lia).
    apply Qle_shift_div_l; [done |].
    assert (H1 : (inject_Z d <= inject_Z (2 ^ Z.succ (Z.log2 d)))%Q)
      by (rewrite <- Zle_Qle; lia).
    assert (H2 : (inject_Z (2 ^ Z.log2 n) <= inject_Z n)%Q)
      by (rewrite <- Zle_Qle; lia).
    apply Qle_trans with (Qpow2 (e - 1) * inject_Z (2 ^ Z.succ (Z.log2 d)))%Q.
    + apply Qmult_le_l; done.
    + rewrite Hsplit. done.
Qed.

(** Rounding to a double moves a number by at most [2^-53] of its size. *)
Lemma RN_error (x : Q) :
  (Qabs (RN x - x) <= Qabs x * (1 # 9007199254740992))%Q.
Proof.
  unfold RN. destruct (Qeq_bool x 0) eqn:E0.
  - apply Qeq_bool_iff in E0. rewrite E0. vm_compute. discriminate.
  - assert (Hx : ¬ (x == 0)%Q).
    { intros H. apply Qeq_bool_iff in H. congruence. }
    set (e := ilog2 x - 52). rewrite Qred_correct.
    pose proof (Qpow2_pos e) as Hs.
    pose proof (round_half_even_error (x / Qpow2 e)) as Hr.
    set (m := inject_Z (round_half_even (x / Qpow2 e))) in *.
    assert (Hxs : (x == x / Qpow2 e * Qpow2 e)%Q).
    { field. intros H. rewrite H in Hs. by apply Qlt_irrefl in Hs. }
    assert (Hdiff : (m * Qpow2 e - x == (m - x / Qpow2 e) * Qpow2 e)%Q).
    { rewrite Hxs at 1. ring. }
    rewrite Hdiff, Qabs_Qmult, (Qabs_pos (Qpow2 e)) by lra.
    assert (He : (Qpow2 e * 4503599627370496 == Qpow2 (ilog2 x))%Q).
    { unfold e. replace (ilog2 x) with (ilog2 x - 52 + 52) at 2 by lia.
      rewrite Qpow2_add. rewrite (Qpow2_nonneg 52) by lia. reflexivity. }
    pose proof (ilog2_lower x Hx) as Hl. rewrite <- He in Hl.
    pose proof (Qabs_nonneg (m - x / Qpow2 e)) as Hnn.
    apply Qle_trans with ((1 # 2) * Qpow2 e)%Q.
    + apply Qmult_le_compat_r; [done | lra].
    + lra.
Qed.

Lemma RN_close (x c : Q) :
  (Qabs x <= c)%Q →
  (x - c * (1 # 9007199254740992) <= RN x
   <= x + c * (1 # 9007199254740992))%Q.
Proof.
  intros Hc. pose proof (RN_error x) as He.
  apply Qabs_Qle_condition in He.
  assert (Hm : (Qabs x * (1 # 9007199254740992)
                <= c * (1 # 9007199254740992))%Q)
    by (apply Qmult_le_compat_r; [done | discriminate]).
  split; lra.
Qed.

(** ** The calendar *)

Lemma datetime_fields (d : datetime) :
  (1 ≤ year d ≤ 9999) ∧ (1 ≤ month d ≤ 12)
  ∧ (1 ≤ day d ≤ days_in_month (year d) (month d))
  ∧ (0 ≤ hour d ≤ 23) ∧ (0 ≤ minute d ≤ 59) ∧ (0 ≤ second d ≤ 59)
  ∧ (0 ≤ microsecond d ≤ 999999).
Proof.
  destruct d as [y mo dd h mi s us p]. simpl. unfold datetime_ok in p.
  repeat (apply andb_prop in p as [p ?]).
  repeat match goal with H : (_ <=? _) = true |- _ => apply Z.leb_le in H end.
  apply Z.leb_le in p. lia.
Qed.

(** The day of [computeJD] is the day of the calendar: the Julian day at
    midnight is the ordinal plus 1721424.5. *)
Lemma julian_day_ordinal (d : datetime) :
  let Y := if month d <=? 2 then year d - 1 else year d in
  let M := if month d <=? 2 then month d + 12 else month d in
  let A := Y ÷ 100 in
  let B := 2 - A + A ÷ 4 in
  let X1 := (36525 * (Y + 4716)) ÷ 100 in
  let X2 := (306001 * (M + 1)) ÷ 10000 in
  2 * (X1 + X2 + day d + B) - 3049 = 2 * toordinal d + 3442849.
Proof.
  destruct (datetime_fields d) as (Hy & Hm & _).
  unfold toordinal, days_before_year, days_before_month, is_leap.
  set (y := year d) in *. set (m := month d) in *. set (dd := day d).
  assert (Hc : m = 1 ∨ m = 2 ∨ m = 3 ∨ m = 4 ∨ m = 5 ∨ m = 6 ∨ m = 7
               ∨ m = 8 ∨ m = 9 ∨ m = 10 ∨ m = 11 ∨ m = 12) by lia.
  clearbody y m dd. clear Hm.
  destruct Hc as [-> | [-> | [-> | [-> | [-> | [-> | [-> | [-> | [-> | [->
                 | [-> | ->]]]]]]]]]]]; cbn -[Z.quot Z.div Z.modulo Z.mul Z.add Z.sub];
    rewrite ?Z.quot_div_nonneg by (try lia; apply Z.div_pos; lia);
    cbn [Z.leb Z.compare Z.ltb Pos.compare Pos.compare_cont andb];
    repeat match goal with
           | |- context [Z.eqb ?a ?b] => destruct (Z.eqb_spec a b)
           end;
    cbn [andb orb negb];
    Z.to_euclidean_division_equations; lia.
Qed.

(** ** How close the hours of the query are to the elapsed time *)

Ltac Qconsts :=
  repeat match goal with
         | |- context [inject_Z (Zpos ?p)] =>
             change (inject_Z (Zpos p)) with (Zpos p # 1)%Q
         | H : context [inject_Z (Zpos ?p)] |- _ =>
             change (inject_Z (Zpos p)) with (Zpos p # 1)%Q in H
         | |- context [inject_Z 0] => change (inject_Z 0) with 0%Q
         | H : context [inject_Z 0] |- _ => change (inject_Z 0) with 0%Q in H
         end.

Lemma inject_Z_bounds (z lo hi : Z) :
  lo ≤ z ≤ hi → (inject_Z lo <= inject_Z z <= inject_Z hi)%Q.
Proof. intros [? ?]. split; by rewrite <- Zle_Qle. Qed.

Ltac RN_step x c H :=
  let Hb := fresh "Hb" in
  assert (Hb : (Qabs x <= c)%Q)
    by (apply Qabs_Qle_condition; split; lra);
  pose proof (RN_close x c Hb) as H; clear Hb.

(** The milliseconds SQLite reads from the seconds of a timestamp are the
    seconds and microseconds rounded to the millisecond. *)
Lemma sqlite_milliseconds (d : datetime) :
  let v := (1000 * inject_Z (second d)
            + inject_Z (microsecond d) * (1 # 1000))%Q in
  (v - (51 # 100)
   <= inject_Z (Qfloor (fadd (fmul (sqlite_seconds d) 1000) (1 # 2)))
   <= v + (51 # 100))%Q.
Proof.
  destruct (datetime_fields d) as (_ & _ & _ & _ & _ & Hs & Hus).
  apply inject_Z_bounds in Hs, Hus. Qconsts.
  unfold sqlite_seconds, fadd, fmul, fdiv.
  set (b := inject_Z (second d)) in *.
  set (a := inject_Z (microsecond d)) in *.
  assert (Ha : (a / 1000000 == a * (1 # 1000000))%Q) by (unfold Qdiv; reflexivity).
  set (f1 := RN (a / 1000000)).
  RN_step (a / 1000000)%Q 1%Q H1. fold f1 in H1.
  set (s := RN (b + f1)).
  RN_step (b + f1)%Q 61%Q H2. fold s in H2.
  set (p := RN (s * 1000)).
  RN_step (s * 1000)%Q 62000%Q H3. fold p in H3.
  set (y := RN (p + (1 # 2))).
  RN_step (p + (1 # 2))%Q 63000%Q H4. fold y in H4.
  pose proof (Qfloor_le y) as Hlo. pose proof (Qlt_floor y) as Hhi.
  rewrite inject_Z_plus in Hhi. change (inject_Z 1) with 1%Q in Hhi.
  cbv zeta. split; lra.
Qed.

Lemma iJD_ordinal (d : datetime) :
  iJD d = (2 * toordinal d + 3442849) * 43200000
          + hour d * 3600000 + minute d * 60000
          + Qfloor (fadd (fmul (sqlite_seconds d) 1000) (1 # 2)).
Proof.
  unfold iJD. cbv zeta. pose proof (julian_day_ordinal d) as H.
  cbv zeta in H. by rewrite H.
Qed.

Lemma iJD_close (d : datetime) :
  (exact_hours_of d - (51 # 360000000)
   <= inject_Z (iJD d) * (1 # 3600000)
   <= exact_hours_of d + (51 # 360000000))%Q.
Proof.
  rewrite iJD_ordinal. pose proof (sqlite_milliseconds d) as H. cbv zeta in H.
  rewrite !inject_Z_plus, !inject_Z_mult, !inject_Z_plus, !inject_Z_mult.
  Qconsts. unfold exact_hours_of.
  set (ms := inject_Z (Qfloor _)) in *.
  split; lra.
Qed.

Lemma elapsed_hours_exact (s f : datetime) :
  (elapsed_hours s f == exact_hours_of f - exact_hours_of s)%Q.
Proof.
  unfold elapsed_hours, timedelta_us, exact_hours_of.
  unfold Z.sub.
  repeat rewrite ?inject_Z_plus, ?inject_Z_mult, ?inject_Z_opp.
  Qconsts. field.
Qed.

(** The hours the query computes for a closed entry are within half a
    millionth of an hour of the time between its two timestamps. *)
Lemma hours_between_close (s f : datetime) (h : Q) :
  hours_between s f = Some h →
  (Qabs (h - elapsed_hours s f) <= 1 # 2000000)%Q
  ∧ (Qabs h <= 128963689)%Q.
Proof.
  unfold hours_between, julianday, isDate. intros H.
  destruct (validJulianDay (iJD f)) eqn:Vf; [| done].
  destruct (validJulianDay (iJD s)) eqn:Vs; [| done].
  simpl in H. injection H as <-.
  unfold validJulianDay in Vf, Vs.
  apply andb_prop in Vf as [Vf1 Vf2]. apply andb_prop in Vs as [Vs1 Vs2].
  apply Z.leb_le in Vf1, Vf2, Vs1, Vs2.
  pose proof (inject_Z_bounds _ _ _ (conj Vf1 Vf2)) as Bf.
  pose proof (inject_Z_bounds _ _ _ (conj Vs1 Vs2)) as Bs.
  pose proof (iJD_close f) as Cf. pose proof (iJD_close s) as Cs.
  pose proof (elapsed_hours_exact s f) as He.
  Qconsts. unfold fmul, fsub, fdiv.
  set (I2 := inject_Z (iJD f)) in *. set (I1 := inject_Z (iJD s)) in *.
  assert (E2 : (I2 / 86400000 == I2 * (1 # 86400000))%Q)
    by (unfold Qdiv; reflexivity).
  assert (E1 : (I1 / 86400000 == I1 * (1 # 86400000))%Q)
    by (unfold Qdiv; reflexivity).
  set (a := RN (I2 / 86400000)).
  RN_step (I2 / 86400000)%Q 5373485%Q Ha. fold a in Ha.
  set (b := RN (I1 / 86400000)).
  RN_step (I1 / 86400000)%Q 5373485%Q Hb. fold b in Hb.
  set (c := RN (a - b)).
  RN_step (a - b)%Q 5373486%Q Hc. fold c in Hc.
  set (r := RN (c * 24)).
  RN_step (c * 24)%Q 128963688%Q Hr. fold r in Hr.
  split; apply (proj2 (Qabs_Qle_condition _ _)); split; lra.
Qed.


Lemma hours_between_None (s f : datetime) :
  readable s → (hours_between s f = None ↔ ¬ readable f).
Proof.
  unfold hours_between, julianday, readable. intros Hs.
  destruct (isDate s); [| done].
  destruct (isDate f); simpl; split; try done.
  - intros Hf. by destruct Hf.
  - intros _ Hf. by destruct Hf.
Qed.

(** ** Rows and the UPDATE *)

Lemma set_end_time_inactive l now e :
  ¬ active l e → set_end_time l now e = e.
Proof. intros H. unfold set_end_time. by rewrite decide_False. Qed.

Lemma set_end_time_active l now e :
  active l e →
  set_end_time l now e =
    time_entries.mk_row (time_entries.id e) (time_entries.label e)
                        (time_entries.start_time e) (Some now).
Proof. intros H. unfold set_end_time. by rewrite decide_True. Qed.

Lemma set_end_time_not_active l l' now e :
  ¬ active l' (set_end_time l now e) ∨ (l ≠ l' ∧ set_end_time l now e = e).
Proof.
  unfold set_end_time. destruct (decide (active l e)) as [Ha | Hn].
  - left. unfold active. simpl. intros [_ ?]. discriminate.
  - destruct (decide (l = l')) as [-> | Hne]; [left | right]; done.
Qed.

Lemma filter_none {A} (P : A → Prop) `{∀ x, Decision (P x)} (xs : list A) :
  (∀ x, x ∈ xs → ¬ P x) → filter P xs = [].
Proof.
  intros Hno. induction xs as [| x xs IH]; [done |].
  rewrite filter_cons, decide_False by (apply Hno; left).
  apply IH. intros y Hy. apply Hno. by right.
Qed.

Lemma filter_active_nil l (rs : list row) :
  filter (active l) rs = [] ↔ ∀ e, e ∈ rs → ¬ active l e.
Proof.
  split.
  - intros H e He Ha. by apply (filter_nil_not_elem_of _ _ _ H Ha).
  - apply filter_none.
Qed.

Lemma rowcount_zero l t :
  rowcount l t = 0%nat ↔ ∀ e, e ∈ rows t → ¬ active l e.
Proof.
  unfold rowcount. rewrite length_zero_iff_nil. apply filter_active_nil.
Qed.

Lemma update_end_time_none l now t :
  (∀ e, e ∈ rows t → ¬ active l e) → update_end_time l now t = t.
Proof.
  intros H. destruct t as [rs s]. unfold update_end_time. simpl in *. f_equal.
  induction rs as [| e rs IH]; [done |].
  rewrite fmap_cons. rewrite set_end_time_inactive.
  - f_equal. apply IH. intros e' He'. apply H. by right.
  - apply H. by left.
Qed.

Lemma newly_closed_update l now t :
  newly_closed t (update_end_time l now t) = rowcount l t.
Proof.
  unfold newly_closed, rowcount, update_end_time. simpl.
  induction (rows t) as [| e rs IH]; [done |].
  rewrite fmap_cons. simpl. rewrite !filter_cons. simpl.
  destruct (decide (active l e)) as [Ha | Hn].
  - rewrite (set_end_time_active _ _ _ Ha). simpl.
    rewrite decide_True by (destruct Ha; done). simpl. by rewrite IH.
  - rewrite (set_end_time_inactive _ _ _ Hn).
    rewrite decide_False by (intros [? ?]; done). done.
Qed.

Lemma lookup_update_end_time l now t i :
  rows (update_end_time l now t) !! i = set_end_time l now <$> rows t !! i.
Proof. unfold update_end_time. simpl. apply list_lookup_fmap. Qed.

Lemma filter_active_update_nil l now (rs : list row) :
  filter (active l) (set_end_time l now <$> rs) = [].
Proof.
  apply filter_active_nil. intros e He.
  apply list_elem_of_fmap in He as (e0 & -> & _).
  destruct (set_end_time_not_active l l now e0) as [H | [H _]]; done.
Qed.

Lemma filter_active_update_le l l' now (rs : list row) :
  (length (filter (active l') (set_end_time l now <$> rs))
   ≤ length (filter (active l') rs))%nat.
Proof.
  induction rs as [| e rs IH]; [done |].
  rewrite fmap_cons, !filter_cons.
  destruct (set_end_time_not_active l l' now e) as [H | [_ H]].
  - rewrite (decide_False (P := active l' (set_end_time l now e))) by done.
    destruct (decide (active l' e)); simpl; lia.
  - rewrite H. destruct (decide (active l' e)); simpl; lia.
Qed.

(** ** Rowids *)

Lemma last_rowid_ge (rs : list row) e :
  e ∈ rs → ∃ k, last_rowid rs = Some k ∧ time_entries.id e ≤ k.
Proof.
  destruct rs as [| e0 rs]; [by intros H%elem_of_nil |].
  intros He. eexists. split; [done |].
  assert (Hge : ∀ (z : Z) (xs : list row),
            z ≤ foldr (fun e m => Z.max (time_entries.id e) m) z xs)
    by (intros z xs; induction xs; simpl; lia).
  apply elem_of_cons in He as [-> | He]; [apply Hge |].
  induction He as [e rs | e e' rs _ IH]; simpl; lia.
Qed.

Lemma last_rowid_elem (rs : list row) k :
  last_rowid rs = Some k → ∃ e, e ∈ rs ∧ time_entries.id e = k.
Proof.
  destruct rs as [| e0 rs]; [done |]. intros [= <-].
  induction rs as [| e rs IH] in e0 |- *; simpl.
  - exists e0. split; [left | done].
  - destruct (IH e0) as (x & Hx & Hid).
    destruct (Z.max_spec (time_entries.id e)
                (foldr (fun e m => Z.max (time_entries.id e) m)
                       (time_entries.id e0) rs)) as [[_ ->] | [_ ->]].
    + exists x. split; [| done].
      apply elem_of_cons in Hx as [-> | Hx]; [left | right; by right].
    + exists e. split; [right; left | done].
Qed.

Lemma new_rowid_fresh (t : table) (i : Z) :
  new_rowid t = Some i →
  (∀ e, e ∈ rows t → time_entries.id e < i) ∧ seq t < i.
Proof.
  unfold new_rowid. destruct (last_rowid (rows t)) as [k |] eqn:E.
  - destruct (_ || _) eqn:B; [done |]. intros [= <-]. split; [| lia].
    intros e He. destruct (last_rowid_ge _ _ He) as (k' & Hk' & Hle).
    rewrite E in Hk'. injection Hk' as <-. lia.
  - destruct (seq t =? MAX_ROWID); [done |]. intros [= <-]. split; [| lia].
    intros e He. destruct (last_rowid_ge _ _ He) as (k' & Hk' & _).
    congruence.
Qed.

Lemma new_rowid_exhausted (t : table) :
  new_rowid t = None ↔ rowids_exhausted t.
Proof.
  unfold new_rowid, rowids_exhausted.
  destruct (last_rowid (rows t)) as [k |] eqn:E.
  - destruct (Z.leb_spec MAX_ROWID k) as [Hk | Hk];
      destruct (Z.eqb_spec (seq t) MAX_ROWID) as [Hs | Hs]; simpl;
      split; try done; try (intros _; by left).
    + intros _. right. destruct (last_rowid_elem _ _ E) as (e & He & <-).
      by exists e.
    + intros [? | (e & He & Hid)]; [done |].
      destruct (last_rowid_ge _ _ He) as (k' & Hk' & Hle).
      rewrite E in Hk'. injection Hk' as <-. lia.
  - destruct (Z.eqb_spec (seq t) MAX_ROWID) as [Hs | Hs];
      split; try done; try (intros _; by left).
    intros [? | (e & He & _)]; [done |].
    destruct (last_rowid_ge _ _ He) as (k' & Hk' & _). congruence.
Qed.

Lemma insert_entry_Some (l : string) (now : datetime) (t t' : table) :
  insert_entry l now t = Some t' ↔
  ∃ i, new_rowid t = Some i
       ∧ t' = mk_table (rows t ++ [time_entries.mk_row i l (Some now) None]) i.
Proof.
  unfold insert_entry. destruct (new_rowid t) as [i |]; simpl.
  - split; [intros [= <-]; eauto | intros (i' & [= <-] & ->); done].
  - split; [done | intros (i' & ? & _); done].
Qed.

Lemma insert_entry_None (l : string) (now : datetime) (t : table) :
  insert_entry l now t = None ↔ rowids_exhausted t.
Proof.
  rewrite <- new_rowid_exhausted. unfold insert_entry.
  by destruct (new_rowid t).
Qed.

(** ** start *)

Lemma start_time_cases (l : string) (now : datetime) (t : table) :
  (filter (active l) (rows t) ≠ []
   ∧ start_time l now (Some t) =
       mk_result Returned
         ["Error: Active session already exists for label '" +:+ l +:+ "'"]
         (Some t))
  ∨ (filter (active l) (rows t) = []
     ∧ ∃ t', insert_entry l now t = Some t'
             ∧ start_time l now (Some t) =
                 mk_result Returned ["Started timing for '" +:+ l +:+ "'"]
                           (Some t'))
  ∨ (filter (active l) (rows t) = []
     ∧ insert_entry l now t = None
     ∧ start_time l now (Some t) =
         mk_result (Raised OperationalError) [] (Some t)).
Proof.
  unfold start_time.
  destruct (filter (active l) (rows t)) as [| x xs]; [| by left].
  right. destruct (insert_entry l now t) as [t' |]; [left | right]; eauto.
Qed.

Lemma open_session_iff (l : string) (t : table) :
  (∃ e, e ∈ rows t ∧ time_entries.label e = l ∧ time_entries.end_time e = None)
  ↔ filter (active l) (rows t) ≠ [].
Proof.
  rewrite filter_active_nil. split.
  - intros (e & He & Hl & Hn) H. by apply (H e He).
  - intros H. destruct (filter (active l) (rows t)) as [| x xs] eqn:E.
    + destruct H. by apply filter_active_nil.
    + assert (Hx : x ∈ filter (active l) (rows t)) by (rewrite E; left).
      apply list_elem_of_filter in Hx as [[Hl Hn] Hx]. by exists x.
Qed.

(** C3, as the code has it: when a row with the label and a NULL
    [end_time] exists, [start] reports the active session and leaves the
    store as it was; otherwise, while the table still takes rows, it
    appends exactly one row, with the label, [start_time = now] and a NULL
    [end_time], under a fresh rowid, and reports success; and when the
    largest rowid has been reached the INSERT fails: [start] raises,
    prints nothing and leaves the store as it was. *)
Theorem start_time_spec (l : string) (now : datetime) (t : table) :
  ((∃ e, e ∈ rows t ∧ time_entries.label e = l ∧ time_entries.end_time e = None) →
   start_time l now (Some t) =
     mk_result Returned
       ["Error: Active session already exists for label '" +:+ l +:+ "'"]
       (Some t))
  ∧ ((¬ ∃ e, e ∈ rows t ∧ time_entries.label e = l
             ∧ time_entries.end_time e = None) →
     (¬ rowids_exhausted t →
      ∃ i, (∀ e, e ∈ rows t → time_entries.id e < i)
           ∧ seq t < i
           ∧ start_time l now (Some t) =
               mk_result Returned
                 ["Started timing for '" +:+ l +:+ "'"]
                 (Some (mk_table
                          (rows t ++ [time_entries.mk_row i l (Some now) None])
                          i)))
     ∧ (rowids_exhausted t →
        start_time l now (Some t) =
          mk_result (Raised OperationalError) [] (Some t))).
Proof.
  rewrite open_session_iff.
  destruct (start_time_cases l now t)
    as [[Hne E] | [[Hnil (t' & Hins & E)] | (Hnil & Hins & E)]].
  - split; [done |]. intros Hno. by destruct Hno.
  - split; [by rewrite Hnil |]. intros _.
    assert (Hex : ¬ rowids_exhausted t)
      by (rewrite <- (insert_entry_None l now); intros H; congruence).
    apply insert_entry_Some in Hins as (i & Hi & ->).
    split; [| done]. intros _. exists i.
    destruct (new_rowid_fresh _ _ Hi) as [Hf Hs]. done.
  - split; [by rewrite Hnil |]. intros _. split; [| done].
    intros Hex. destruct Hex. by apply insert_entry_None in Hins.
Qed.

(** ** stop *)

Lemma stop_time_db (l : string) (now : datetime) (t : table) :
  db (stop_time l now (Some t)) = Some (update_end_time l now t).
Proof. unfold stop_time. by destruct (rowcount l t =? 0)%nat. Qed.

(** C4: with no row of the label whose [end_time] is NULL, [stop] reports
    that no session is active and leaves the store as it was. *)
Theorem stop_time_no_active_session (l : string) (now : datetime) (t : table) :
  (∀ e, e ∈ rows t →
        ¬ (time_entries.label e = l ∧ time_entries.end_time e = None)) →
  stop_time l now (Some t) =
    mk_result Returned
      ["Error: No active session found for label '" +:+ l +:+ "'"]
      (Some t).
Proof.
  intros H. unfold stop_time.
  rewrite (update_end_time_none l now t H).
  apply rowcount_zero in H. by rewrite H.
Qed.

(** C10: with n >= 1 rows of the label whose [end_time] is NULL, [stop]
    reports success and writes the one [now] it read into the [end_time] of
    each of them; their id, label and [start_time], every other row, the
    number of rows and the rowid counter stay as they were. *)
Theorem stop_time_closes_all (l : string) (now : datetime) (t : table) :
  (1 ≤ length (filter (active l) (rows t)))%nat →
  ∃ t',
    stop_time l now (Some t) =
      mk_result Returned ["Stopped timing for '" +:+ l +:+ "'."] (Some t')
    ∧ length (rows t') = length (rows t)
    ∧ seq t' = seq t
    ∧ newly_closed t t' = length (filter (active l) (rows t))
    ∧ ∀ i e, rows t !! i = Some e →
        (time_entries.label e = l ∧ time_entries.end_time e = None →
         rows t' !! i =
           Some (time_entries.mk_row (time_entries.id e) (time_entries.label e)
                                     (time_entries.start_time e) (Some now)))
        ∧ (¬ (time_entries.label e = l ∧ time_entries.end_time e = None) →
           rows t' !! i = Some e).
Proof.
  intros Hn. exists (update_end_time l now t). repeat split.
  - unfold stop_time. fold (rowcount l t) in Hn.
    destruct (rowcount l t) eqn:E; [lia | done].
  - unfold update_end_time. simpl. apply length_fmap.
  - apply newly_closed_update.
  - intros Ha. rewrite lookup_update_end_time, H. simpl.
    by rewrite set_end_time_active.
  - intros Ha. rewrite lookup_update_end_time, H. simpl.
    by rewrite set_end_time_inactive.
Qed.

(** C2, as the code has it: with more than one row of the label open,
    [stop] closes every one of them in its single UPDATE and prints the
    line of an ordinary stop; no row of the label is open afterwards and
    nothing tells the caller that there were several. *)
Theorem stop_time_duplicate_sessions (l : string) (now : datetime) (t : table) :
  (1 < length (filter (active l) (rows t)))%nat →
  stop_time l now (Some t) =
    mk_result Returned ["Stopped timing for '" +:+ l +:+ "'."]
              (Some (update_end_time l now t))
  ∧ newly_closed t (update_end_time l now t)
    = length (filter (active l) (rows t))
  ∧ filter (active l) (rows (update_end_time l now t)) = [].
Proof.
  intros Hn. repeat split.
  - unfold stop_time. fold (rowcount l t) in Hn.
    destruct (rowcount l t) eqn:E; [lia | done].
  - apply newly_closed_update.
  - apply filter_active_update_nil.
Qed.

(** ** The invariants *)

Lemma get_hours_db (m : Z) (d : database) : db (get_hours m d) = d.
Proof.
  unfold get_hours. destruct d as [t |]; [| done].
  by destruct (fetch_hours m t).
Qed.

Lemma one_open_insert l now t t' :
  filter (active l) (rows t) = [] →
  insert_entry l now t = Some t' →
  one_open_per_label t → one_open_per_label t'.
Proof.
  intros E Hins Hinv l'. apply insert_entry_Some in Hins as (i & _ & ->).
  cbn [rows]. rewrite list.filter_app, length_app, filter_cons, filter_nil.
  destruct (decide (l' = l)) as [-> | Hne].
  - rewrite E, decide_True by done. simpl. lia.
  - rewrite decide_False by (intros [? _]; simpl in *; congruence).
    specialize (Hinv l'). simpl. lia.
Qed.

Lemma one_open_update l now t :
  one_open_per_label t → one_open_per_label (update_end_time l now t).
Proof.
  intros Hinv l'. specialize (Hinv l'). unfold update_end_time. cbn [rows].
  pose proof (filter_active_update_le l l' now (rows t)). lia.
Qed.

(** C7: start, stop and report keep the invariants: from a store with at
    most one open row per label each of them leads to such a store, and no
    row whose [end_time] is set is changed on the way. *)
Theorem operations_preserve_invariants
    (l : string) (now : datetime) (m : Z) (t : table) :
  one_open_per_label t →
  ∀ r, r ∈ [start_time l now (Some t); stop_time l now (Some t);
            get_hours m (Some t)] →
       ∃ t', db r = Some t' ∧ one_open_per_label t' ∧ end_times_kept t t'.
Proof.
  intros Hinv r Hr.
  assert (Hsame : one_open_per_label t ∧ end_times_kept t t)
    by (split; [done | by intros i e He _]).
  rewrite !elem_of_cons in Hr. destruct Hr as [-> | [-> | [-> | Hr]]].
  - destruct (start_time_cases l now t)
      as [[_ ->] | [[E (t' & Hins & ->)] | (_ & _ & ->)]];
      [by exists t | | by exists t].
    exists t'. split; [done |]. split; [by eapply one_open_insert |].
    apply insert_entry_Some in Hins as (i & _ & ->).
    intros j e He _. cbn [rows]. by apply lookup_app_l_Some.
  - rewrite stop_time_db. eexists. split; [done |]. split.
    + by apply one_open_update.
    + intros i e He Hset. rewrite lookup_update_end_time, He. simpl.
      rewrite set_end_time_inactive; [done |]. by intros [_ ?].
  - exists t. split; [| done]. apply get_hours_db.
  - by apply elem_of_nil in Hr.
Qed.

(** ** init *)

(** C8: [init_db] is idempotent: a second run returns what the first did
    and leaves the database the first one left, so whatever runs next sees
    no difference; a table that exists keeps its rows. *)
Theorem init_db_idempotent (d : database) :
  init_db (db (init_db d)) = init_db d
  ∧ (∀ op : database → result,
       op (db (init_db (db (init_db d)))) = op (db (init_db d)))
  ∧ (∀ t, db (init_db (db (init_db (Some t)))) = Some t).
Proof. by destruct d. Qed.

(** ** report *)

(** C9: [get_hours] leaves the store exactly as it was. *)
Theorem get_hours_read_only (m : Z) (d : database) :
  db (get_hours m d) = d.
Proof.
  unfold get_hours. destruct d as [t |]; [| done].
  by destruct (fetch_hours m t).
Qed.

(** ** Printing numbers *)

Lemma to_int_not_nil (z : Z) :
  Z.to_int z ≠ Decimal.Pos Decimal.Nil ∧ Z.to_int z ≠ Decimal.Neg Decimal.Nil.
Proof.
  destruct z as [| p | p]; simpl; split; intros [= H]; try done;
    by apply Unsigned.to_uint_nonnil in H.
Qed.

Lemma str_parse (z : Z) (s : string) (d : Decimal.signed_int) :
  str z = s → NilZero.int_of_string s = Some d → z = Z.of_int d.
Proof.
  intros <- Hd. unfold str in Hd.
  destruct (to_int_not_nil z) as [Hp Hn].
  rewrite (NilZero.isi _ Hp Hn) in Hd. injection Hd as <-.
  symmetry. apply DecimalZ.of_to.
Qed.

Ltac solve_str_parse :=
  match goal with
  | E : str ?k = _ |- ?k = _ => exact (str_parse _ _ _ E eq_refl)
  end.

Ltac solve_month_case H E :=
  vm_compute in H;
  first [ discriminate H
        | injection H as ->; solve_str_parse
        | injection H as ->; discriminate
        | rewrite H in E; solve_str_parse ].

(** For a month of the calendar the text [get_hours] passes to the query
    equals the text [strftime('%m', ts)] gives exactly when the numbers
    agree. *)
Lemma month_param_eq (m k : Z) :
  1 ≤ m ≤ 12 → zfill 2 (str k) = zfill 2 (str m) → k = m.
Proof.
  intros Hm H.
  assert (Hc : m = 1 ∨ m = 2 ∨ m = 3 ∨ m = 4 ∨ m = 5 ∨ m = 6 ∨ m = 7
               ∨ m = 8 ∨ m = 9 ∨ m = 10 ∨ m = 11 ∨ m = 12) by lia.
  unfold zfill in H at 1.
  destruct (str k) as [| c [| c' r]] eqn:E; simpl in H;
    [| destruct (Ascii.eqb c "-" || Ascii.eqb c "+")%bool eqn:Hs |];
    destruct Hc as [-> | [-> | [-> | [-> | [-> | [-> | [-> | [-> | [-> | [->
                   | [-> | ->]]]]]]]]]]];
    solve_month_case H E.
Qed.

(** ** GROUP BY *)

Lemma values_for_snoc (k l : string) (v : option Q)
    (xs : list (string * option Q)) :
  values_for k (xs ++ [(l, v)])
  = values_for k xs ++ (if decide (l = k) then [v] else []).
Proof.
  unfold values_for. rewrite list.filter_app, fmap_app.
  f_equal. rewrite filter_cons, filter_nil. simpl.
  by destruct (decide (l = k)).
Qed.

Lemma values_for_absent (k : string) (xs : list (string * option Q)) :
  k ∉ (xs.*1) → values_for k xs = [].
Proof.
  intros Hk. unfold values_for. rewrite filter_none; [done |].
  intros x Hx Hfst. apply Hk. apply list_elem_of_fmap. by exists x.
Qed.

Lemma add_to_group_keys l v (groups : list (string * SumCtx)) :
  (add_to_group l v groups).*1
  = if decide (l ∈ (groups.*1)) then (groups.*1) else (groups.*1) ++ [l].
Proof.
  induction groups as [| [l' p'] groups IH].
  - by destruct (decide (l ∈ [].*1)) as [Hin%elem_of_nil |].
  - cbn [add_to_group]. destruct (String.eqb l' l) eqn:E.
    + apply String.eqb_eq in E as ->. rewrite !fmap_cons.
      cbn [fst]. rewrite decide_True; [done | left].
    + apply String.eqb_neq in E. rewrite !fmap_cons, IH. cbn [fst].
      destruct (decide (l ∈ (groups.*1))) as [Hin | Hout].
      * rewrite decide_True; [done | by right].
      * rewrite decide_False; [done |].
        rewrite not_elem_of_cons. split; [congruence | done].
Qed.

Lemma add_to_group_elem l v (groups : list (string * SumCtx)) k p :
  NoDup (groups.*1) →
  (k, p) ∈ add_to_group l v groups →
  (k ≠ l ∧ (k, p) ∈ groups)
  ∨ (k = l ∧ ((∃ p0, (l, p0) ∈ groups ∧ p = sumStep p0 v)
              ∨ ((l ∉ (groups.*1)) ∧ p = sumStep sumInit v))).
Proof.
  induction groups as [| [l' p'] groups IH]; simpl; intros Hnd Hin.
  - apply list_elem_of_singleton in Hin as [= -> ->].
    right. split; [done |]. right. split; [apply not_elem_of_nil | done].
  - apply list.NoDup_cons in Hnd as [Hl' Hnd].
    destruct (String.eqb l' l) eqn:E.
    + apply String.eqb_eq in E as ->.
      apply elem_of_cons in Hin as [[= -> ->] | Hin].
      * right. split; [done |]. left. exists p'. split; [left | done].
      * left. split; [| by right].
        intros ->. apply Hl'. apply list_elem_of_fmap. by exists (l, p).
    + apply String.eqb_neq in E.
      apply elem_of_cons in Hin as [[= -> ->] | Hin].
      * left. split; [done | left].
      * destruct (IH Hnd Hin) as [[Hne Hkv] | [-> [(p0 & Hp0 & ->) | [Hout ->]]]].
        -- left. split; [done | by right].
        -- right. split; [done |]. left. exists p0. split; [by right | done].
        -- right. split; [done |]. right. split; [| done].
           rewrite not_elem_of_cons. split; [congruence | done].
Qed.

Lemma groups_of_add l v groups xs :
  groups_of groups xs →
  groups_of (add_to_group l v groups) (xs ++ [(l, v)]).
Proof.
  intros (Hnd & Hkeys & Hsum). split; [| split].
  - rewrite add_to_group_keys. destruct (decide (l ∈ (groups.*1))); [done |].
    apply list.NoDup_app. repeat split; [done | | apply NoDup_singleton].
    intros k Hk ->%list_elem_of_singleton. done.
  - intros k. rewrite add_to_group_keys, fmap_app, elem_of_app. simpl.
    rewrite list_elem_of_singleton.
    destruct (decide (l ∈ (groups.*1))) as [Hin | Hout].
    + rewrite Hkeys. split; [tauto |]. intros [? | ->]; [done |].
      by apply Hkeys.
    + rewrite elem_of_app, Hkeys, list_elem_of_singleton. tauto.
  - intros k p Hin. rewrite values_for_snoc, foldl_app.
    destruct (add_to_group_elem _ _ _ _ _ Hnd Hin)
      as [[Hne Hkv] | [-> [(p0 & Hp0 & ->) | [Hout ->]]]].
    + rewrite decide_False by congruence. simpl. by apply Hsum.
    + rewrite decide_True by done. simpl. f_equal. by apply Hsum.
    + rewrite decide_True by done.
      rewrite values_for_absent; [done |]. by rewrite <- Hkeys.
Qed.

Lemma groups_of_foldl xs groups ys :
  groups_of groups ys →
  groups_of (foldl (fun g x => add_to_group (fst x) (snd x) g) groups xs)
            (ys ++ xs).
Proof.
  revert groups ys. induction xs as [| [l v] xs IH]; intros groups ys H; simpl.
  - by rewrite app_nil_r.
  - rewrite (cons_middle _ ys xs), app_assoc. apply IH.
    by apply groups_of_add.
Qed.

Lemma group_by_label_spec xs : groups_of (group_by_label xs) xs.
Proof.
  apply (groups_of_foldl xs [] []). split; [| split].
  - apply NoDup_nil_2.
  - done.
  - intros k p Hin. by apply elem_of_nil in Hin.
Qed.

(** The result of the query in terms of its selected rows. *)
Lemma sorted_groups_elem (xs : list (string * option Q)) (l : string)
    (v : option Q) :
  (l, v) ∈ ((fun g => (fst g, sumFinalize (snd g)))
              <$> merge_sort (fun g1 g2 => (fst g1 ≤ fst g2)%string)
                    (group_by_label xs))
  ↔ l ∈ (xs.*1) ∧ v = sql_sum (values_for l xs).
Proof.
  destruct (group_by_label_spec xs) as (Hnd & Hkeys & Hsum).
  rewrite list_elem_of_fmap. split.
  - intros ([k p] & [= -> ->] & Hin). rewrite merge_sort_Permutation in Hin.
    split.
    + apply Hkeys. apply list_elem_of_fmap. by exists (k, p).
    + unfold sql_sum. by rewrite <- (Hsum _ _ Hin).
  - intros [Hl ->]. apply Hkeys, list_elem_of_fmap in Hl as ([k p] & Hk & Hin).
    simpl in Hk. subst k. exists (l, p). split.
    + unfold sql_sum. by rewrite <- (Hsum _ _ Hin).
    + by rewrite merge_sort_Permutation.
Qed.

Lemma sorted_groups_NoDup (xs : list (string * option Q)) :
  NoDup (((fun g => (fst g, sumFinalize (snd g)))
            <$> merge_sort (fun g1 g2 => (fst g1 ≤ fst g2)%string)
                  (group_by_label xs)).*1).
Proof.
  destruct (group_by_label_spec xs) as (Hnd & _ & _).
  rewrite <- list_fmap_compose.
  assert (Hp : fst ∘ (fun g : string * SumCtx => (fst g, sumFinalize (snd g)))
               <$> merge_sort (fun g1 g2 => (fst g1 ≤ fst g2)%string)
                     (group_by_label xs)
               ≡ₚ (group_by_label xs).*1).
  { apply fmap_Permutation, merge_sort_Permutation. }
  by rewrite Hp.
Qed.

Lemma sorted_groups_nil (xs : list (string * option Q)) :
  (fun g => (fst g, sumFinalize (snd g)))
    <$> merge_sort (fun g1 g2 => (fst g1 ≤ fst g2)%string) (group_by_label xs)
  = [] ↔ xs = [].
Proof.
  split.
  - intros E. destruct xs as [| [l v] xs]; [done |].
    assert (Hin : (l, sql_sum (values_for l ((l, v) :: xs)))
                  ∈ (fun g => (fst g, sumFinalize (snd g)))
                      <$> merge_sort (fun g1 g2 => (fst g1 ≤ fst g2)%string)
                            (group_by_label ((l, v) :: xs))).
    { apply sorted_groups_elem. split; [left | done]. }
    rewrite E in Hin. by apply elem_of_nil in Hin.
  - intros ->. done.
Qed.

Lemma sorted_groups_Sorted (xs : list (string * option Q)) :
  Sorted String.le
    (((fun g => (fst g, sumFinalize (snd g)))
        <$> merge_sort (fun g1 g2 => (fst g1 ≤ fst g2)%string)
              (group_by_label xs)).*1).
Proof.
  rewrite <- list_fmap_compose.
  apply (Sorted_fmap _ (fun g1 g2 : string * SumCtx => (fst g1 ≤ fst g2)%string));
    [done |].
  apply Sorted_merge_sort.
  intros g1 g2. apply (total String.le).
Qed.

(** ** The query of [get_hours] *)

Lemma strftime_m_Some (s : datetime) (mm : string) :
  strftime_m s = Some mm ↔ readable s ∧ mm = zfill 2 (str (month s)).
Proof.
  unfold strftime_m, readable. destruct (isDate s); simpl.
  - split; [by intros [= <-] | by intros [_ ->]].
  - split; [done | by intros [? _]].
Qed.

Lemma select_hours_Some (m : Z) (e : row) (l : string) (v : option Q) :
  1 ≤ m ≤ 12 →
  select_hours (zfill 2 (str m)) e = Some (l, v)
  ↔ closed_in_month m e ∧ time_entries.label e = l ∧ v = entry_hours e.
Proof.
  intros Hm. unfold select_hours, closed_in_month, entry_hours.
  destruct (time_entries.start_time e) as [s |],
           (time_entries.end_time e) as [f |]; simpl;
    try (split; [discriminate | intros ([? ?] & _); done]).
  destruct (strftime_m s) as [mm |] eqn:Es.
  - apply strftime_m_Some in Es as [Hr ->].
    destruct (String.eqb _ _) eqn:E.
    + apply String.eqb_eq, month_param_eq in E; [| done].
      split; [by intros [= <- <-] | by intros (_ & <- & ->)].
    + apply String.eqb_neq in E. split; [discriminate |].
      intros ([[_ Hs] _] & _). by rewrite Hs in E.
  - split; [discriminate |]. intros ([[Hr _] _] & _).
    assert (H : strftime_m s = Some (zfill 2 (str (month s))))
      by by apply strftime_m_Some.
    congruence.
Qed.

Lemma selected_labels (m : Z) (rs : list row) (l : string) :
  1 ≤ m ≤ 12 →
  l ∈ (omap (select_hours (zfill 2 (str m))) rs).*1
  ↔ ∃ e, e ∈ rs ∧ closed_in_month m e ∧ time_entries.label e = l.
Proof.
  intros Hm. rewrite list_elem_of_fmap. split.
  - intros ([l' v] & -> & Hin). apply list_elem_of_omap in Hin as (e & He & Hsel).
    apply select_hours_Some in Hsel as (Hc & Hl & _); [| done]. eauto.
  - intros (e & He & Hc & Hl).
    exists (l, entry_hours e). split; [done |]. apply list_elem_of_omap.
    exists e. split; [done |]. by apply select_hours_Some.
Qed.

Lemma selected_values (m : Z) (rs : list row) (l : string) :
  1 ≤ m ≤ 12 →
  values_for l (omap (select_hours (zfill 2 (str m))) rs)
  = entry_hours
      <$> filter (fun e => closed_in_month m e ∧ time_entries.label e = l) rs.
Proof.
  intros Hm. unfold values_for.
  induction rs as [| e rs IH]; [done |].
  rewrite (filter_cons (λ e, closed_in_month m e ∧ time_entries.label e = l)).
  cbn [omap list_omap].
  destruct (select_hours (zfill 2 (str m)) e) as [[l' v] |] eqn:E.
  - apply select_hours_Some in E as (Hc & Hl & ->); [| done].
    rewrite filter_cons. cbn [fst].
    destruct (decide (l' = l)) as [-> | Hne].
    + rewrite decide_True by done. rewrite !fmap_cons. by rewrite IH.
    + rewrite decide_False by (intros [_ ?]; congruence). done.
  - rewrite decide_False; [done |]. intros [Hc Hl].
    assert (Hsel : select_hours (zfill 2 (str m)) e = Some (l, entry_hours e))
      by by apply select_hours_Some.
    congruence.
Qed.

Lemma selected_none (m : Z) (rs : list row) :
  1 ≤ m ≤ 12 →
  (∀ e, e ∈ rs → ¬ closed_in_month m e) →
  omap (select_hours (zfill 2 (str m))) rs = [].
Proof.
  intros Hm Hno.
  destruct (omap _ rs) as [| [l v] xs] eqn:E; [done |].
  assert (Hin : (l, v) ∈ omap (select_hours (zfill 2 (str m))) rs)
    by (rewrite E; left).
  apply list_elem_of_omap in Hin as (e & He & Hsel).
  apply select_hours_Some in Hsel as (Hc & _); [| done].
  by destruct (Hno e He).
Qed.

Lemma fetch_hours_elem (m : Z) (t : table) (l : string) (v : option Q) :
  1 ≤ m ≤ 12 →
  (l, v) ∈ fetch_hours m t
  ↔ (∃ e, e ∈ rows t ∧ closed_in_month m e ∧ time_entries.label e = l)
    ∧ v = total_hours m l t.
Proof.
  intros Hm. unfold fetch_hours, total_hours.
  by rewrite sorted_groups_elem, selected_labels, selected_values.
Qed.

Lemma fetch_hours_nil (m : Z) (t : table) :
  1 ≤ m ≤ 12 →
  fetch_hours m t = [] ↔ ∀ e, e ∈ rows t → ¬ closed_in_month m e.
Proof.
  intros Hm. unfold fetch_hours. rewrite sorted_groups_nil. split.
  - intros E e He Hc.
    assert (Hin : time_entries.label e
                  ∈ (omap (select_hours (zfill 2 (str m))) (rows t)).*1)
      by (apply selected_labels; eauto).
    rewrite E in Hin. by apply elem_of_nil in Hin.
  - by apply selected_none.
Qed.

(** ** What [get_hours] prints *)




(** C5, as the code has it: for a month [m] from 1 to 12 the report has
    one pair per label, in the order of the labels; a pair [(l, v)] is in
    it exactly when some entry
    with label [l] has its [end_time] present and a readable [start_time]
    in month [m] (of any year), and [v] is then the SUM, in doubles, of
    what those entries contribute.  An entry contributes the double
    [(julianday(end_time) - julianday(start_time)) * 24], which is within
    half a millionth of an hour of [end_time - start_time] but is not that
    duration itself, and NULL when its [end_time] is not readable.  When no
    entry counts the report is empty and [get_hours] prints its no-entries
    line. *)
Theorem fetch_hours_spec (m : Z) (t : table) :
  1 ≤ m ≤ 12 →
  NoDup ((fetch_hours m t).*1)
  ∧ Sorted String.le ((fetch_hours m t).*1)
  ∧ (∀ l v,
       (l, v) ∈ fetch_hours m t
       ↔ (∃ e, e ∈ rows t ∧ closed_in_month m e ∧ time_entries.label e = l)
         ∧ v = total_hours m l t)
  ∧ (∀ e s f,
       e ∈ rows t → time_entries.start_time e = Some s →
       time_entries.end_time e = Some f → readable s →
       (entry_hours e = None ↔ ¬ readable f)
       ∧ ∀ h, entry_hours e = Some h →
              (Qabs (h - elapsed_hours s f) <= 1 # 2000000)%Q)
  ∧ ((∀ e, e ∈ rows t → ¬ closed_in_month m e) →
     fetch_hours m t = []
     ∧ get_hours m (Some t) =
         mk_result Returned ["No entries found for month " +:+ str m] (Some t)).
Proof.
  intros Hm. split; [| split; [| split; [| split]]].
  - apply sorted_groups_NoDup.
  - apply sorted_groups_Sorted.
  - intros l v. by apply fetch_hours_elem.
  - intros e s f He Hs Hf Hr. unfold entry_hours. rewrite Hs, Hf. simpl.
    split; [by apply hours_between_None |].
    intros h Hh. by apply hours_between_close.
  - intros Hno.
    assert (E : fetch_hours m t = []) by by apply fetch_hours_nil.
    split; [done |]. unfold get_hours. by rewrite E.
Qed.


(** X15: for a month from 1 to 12, [get_hours] prints its no-entries line
    exactly when no row with an [end_time] has a readable [start_time] in
    that month. *)
Theorem get_hours_no_entries_iff (m : Z) (t : table) :
  1 ≤ m ≤ 12 →
  stdout (get_hours m (Some t))
    = ["No entries found for month " +:+ str m]
  ↔ ∀ e, e ∈ rows t → ¬ closed_in_month m e.
Proof.
  intros Hm. rewrite <- fetch_hours_nil by done. unfold get_hours.
  destruct (fetch_hours m t) as [| x xs]; [done |].
  split; [| done]. cbn [stdout]. intros H. discriminate H.
Qed.

(** * Further properties of the code *)

(** ** The life of a session *)

Lemma start_time_returned (l : string) (now : datetime) (t : table) :
  status (start_time l now (Some t)) = Returned →
  ∃ t', db (start_time l now (Some t)) = Some t'
        ∧ filter (active l) (rows t') ≠ [].
Proof.
  destruct (start_time_cases l now t)
    as [[Hne ->] | [[_ (t' & Hins & ->)] | (_ & _ & ->)]]; simpl.
  - intros _. by exists t.
  - intros _. exists t'. split; [done |].
    apply insert_entry_Some in Hins as (i & _ & ->). cbn [rows].
    rewrite list.filter_app, filter_cons, decide_True by done.
    by destruct (filter (active l) (rows t)).
  - done.
Qed.

Lemma start_time_rejects (l : string) (now : datetime) (t : table) :
  filter (active l) (rows t) ≠ [] →
  start_time l now (Some t) =
    mk_result Returned
      ["Error: Active session already exists for label '" +:+ l +:+ "'"]
      (Some t).
Proof.
  intros Hne.
  by destruct (start_time_cases l now t) as [[_ ?] | [[? _] | [? _]]].
Qed.


(** X1: a second [start] of a label is turned away: when the first start
    returned, whether it was accepted or not, the next [start] of the same
    label prints the active-session error and leaves the store as the
    first one left it. *)
Theorem start_time_twice (l : string) (n1 n2 : datetime) (t : table) :
  status (start_time l n1 (Some t)) = Returned →
  start_time l n2 (db (start_time l n1 (Some t))) =
    mk_result Returned
      ["Error: Active session already exists for label '" +:+ l +:+ "'"]
      (db (start_time l n1 (Some t))).
Proof.
  intros Hret. destruct (start_time_returned l n1 t Hret) as (t' & -> & Hne).
  by apply start_time_rejects.
Qed.

(** X2: a second [stop] of a label always finds nothing to stop: after any
    [stop], the next [stop] of the same label prints the no-session error
    and leaves the store as the first one left it. *)
Theorem stop_time_twice (l : string) (n1 n2 : datetime) (t : table) :
  stop_time l n2 (db (stop_time l n1 (Some t))) =
    mk_result Returned
      ["Error: No active session found for label '" +:+ l +:+ "'"]
      (db (stop_time l n1 (Some t))).
Proof.
  rewrite stop_time_db. unfold stop_time.
  assert (Hno : ∀ e, e ∈ rows (update_end_time l n1 t) → ¬ active l e)
    by (apply filter_active_nil, filter_active_update_nil).
  rewrite (update_end_time_none l n2 _ Hno).
  apply rowcount_zero in Hno. by rewrite Hno.
Qed.


(** X4: after a [start] of a label that returned, a [stop] of it succeeds:
    it prints the stopped line, and no row of the label is open
    afterwards. *)
Theorem stop_time_after_start (l : string) (n1 n2 : datetime) (t : table) :
  status (start_time l n1 (Some t)) = Returned →
  ∃ t', stop_time l n2 (db (start_time l n1 (Some t))) =
          mk_result Returned ["Stopped timing for '" +:+ l +:+ "'."] (Some t')
        ∧ filter (active l) (rows t') = [].
Proof.
  intros Hret. destruct (start_time_returned l n1 t Hret) as (t1 & -> & Hne).
  exists (update_end_time l n2 t1). split.
  - unfold stop_time. unfold rowcount.
    destruct (filter (active l) (rows t1)); done.
  - apply filter_active_update_nil.
Qed.

(** ** What an operation on one label leaves alone *)

Lemma same_identity_refl e : same_identity e e.
Proof. by repeat split. Qed.

Lemma set_end_time_identity l now e : same_identity e (set_end_time l now e).
Proof. unfold set_end_time. by destruct (decide (active l e)). Qed.

Lemma set_end_time_other_label l now e :
  time_entries.label e ≠ l → set_end_time l now e = e.
Proof. intros Hne. apply set_end_time_inactive. by intros [? _]. Qed.

Lemma filter_other_labels_update l now (rs : list row) :
  filter (fun e => time_entries.label e ≠ l) (set_end_time l now <$> rs)
  = filter (fun e => time_entries.label e ≠ l) rs.
Proof.
  induction rs as [| e rs IH]; [done |].
  rewrite fmap_cons, !filter_cons.
  destruct (set_end_time_identity l now e) as (_ & Hl & _). rewrite Hl.
  destruct (decide (time_entries.label e ≠ l)) as [Hne | Heq].
  - by rewrite (set_end_time_other_label _ _ _ Hne), IH.
  - done.
Qed.

(** X5: [start] and [stop] of label [l] leave the rows of every other
    label exactly as they were, in the same order. *)
Theorem other_labels_untouched (l : string) (now : datetime) (t : table) :
  ∀ r, r ∈ [start_time l now (Some t); stop_time l now (Some t)] →
       ∃ t', db r = Some t'
             ∧ filter (fun e => time_entries.label e ≠ l) (rows t')
               = filter (fun e => time_entries.label e ≠ l) (rows t).
Proof.
  intros r Hr. rewrite !elem_of_cons in Hr.
  destruct Hr as [-> | [-> | Hr]]; [| | by apply elem_of_nil in Hr].
  - destruct (start_time_cases l now t)
      as [[_ ->] | [[_ (t' & Hins & ->)] | (_ & _ & ->)]];
      [by exists t | | by exists t].
    exists t'. split; [done |].
    apply insert_entry_Some in Hins as (i & _ & ->). cbn [rows].
    rewrite list.filter_app, filter_cons, decide_False by (simpl; tauto).
    by rewrite filter_nil, app_nil_r.
  - rewrite stop_time_db. eexists. split; [done |].
    apply filter_other_labels_update.
Qed.

(** X6: the store is an append-only log: [start], [stop] and the report
    never remove a row, and every row keeps its position, id, label and
    [start_time]. *)
Theorem rows_never_removed
    (l : string) (now : datetime) (m : Z) (t : table) :
  ∀ r, r ∈ [start_time l now (Some t); stop_time l now (Some t);
            get_hours m (Some t)] →
       ∃ t', db r = Some t'
             ∧ (length (rows t) ≤ length (rows t'))%nat
             ∧ ∀ i e, rows t !! i = Some e →
                 ∃ e', rows t' !! i = Some e' ∧ same_identity e e'.
Proof.
  intros r Hr.
  assert (Hsame : ∃ t', Some t = Some t'
                   ∧ (length (rows t) ≤ length (rows t'))%nat
                   ∧ ∀ i e, rows t !! i = Some e →
                       ∃ e', rows t' !! i = Some e' ∧ same_identity e e')
    by (exists t; split; [done | split; [lia |]];
        intros i e He; exists e; split; [done | apply same_identity_refl]).
  rewrite !elem_of_cons in Hr.
  destruct Hr as [-> | [-> | [-> | Hr]]]; [| | | by apply elem_of_nil in Hr].
  - destruct (start_time_cases l now t)
      as [[_ ->] | [[_ (t' & Hins & ->)] | (_ & _ & ->)]]; [done | | done].
    exists t'. split; [done |].
    apply insert_entry_Some in Hins as (j & _ & ->). cbn [rows].
    split; [rewrite length_app; lia |].
    intros i e He. exists e.
    split; [by apply lookup_app_l_Some | apply same_identity_refl].
  - rewrite stop_time_db. eexists. split; [done |]. split.
    + unfold update_end_time. cbn [rows]. by rewrite length_fmap.
    + intros i e He. exists (set_end_time l now e).
      split; [| apply set_end_time_identity].
      unfold update_end_time. cbn [rows]. by rewrite list_lookup_fmap, He.
  - by rewrite get_hours_db.
Qed.

(** ** Rowids *)

Lemma rowids_update l now (rs : list row) :
  time_entries.id <$> (set_end_time l now <$> rs) = time_entries.id <$> rs.
Proof.
  induction rs as [| e rs IH]; [done |]. rewrite !fmap_cons, IH.
  by destruct (set_end_time_identity l now e) as (-> & _).
Qed.

Lemma rowids_unique_insert l now t t' :
  insert_entry l now t = Some t' → rowids_unique t → rowids_unique t'.
Proof.
  intros Hins Hnd. apply insert_entry_Some in Hins as (i & Hi & ->).
  unfold rowids_unique in *. cbn [rows].
  rewrite fmap_app. apply list.NoDup_app. split; [done |]. split.
  - intros j Hj ->%list_elem_of_singleton.
    apply list_elem_of_fmap in Hj as (e & Hid & He).
    destruct (new_rowid_fresh _ _ Hi) as [Hf _].
    specialize (Hf e He). simpl in Hid. lia.
  - apply NoDup_singleton.
Qed.

Lemma rowids_unique_update l now t :
  rowids_unique t → rowids_unique (update_end_time l now t).
Proof.
  unfold rowids_unique, update_end_time. cbn [rows]. by rewrite rowids_update.
Qed.

(** X7: the primary key stays a key: from a store whose ids are pairwise
    distinct, [start], [stop] and the report lead to such a store. *)
Theorem rowids_stay_unique
    (l : string) (now : datetime) (m : Z) (t : table) :
  rowids_unique t →
  ∀ r, r ∈ [start_time l now (Some t); stop_time l now (Some t);
            get_hours m (Some t)] →
       ∃ t', db r = Some t' ∧ rowids_unique t'.
Proof.
  intros Hu r Hr. rewrite !elem_of_cons in Hr.
  destruct Hr as [-> | [-> | [-> | Hr]]]; [| | | by apply elem_of_nil in Hr].
  - destruct (start_time_cases l now t)
      as [[_ ->] | [[_ (t' & Hins & ->)] | (_ & _ & ->)]];
      [by exists t | | by exists t].
    exists t'. split; [done |]. by eapply rowids_unique_insert.
  - rewrite stop_time_db. eexists. split; [done |].
    by apply rowids_unique_update.
  - exists t. split; [| done]. apply get_hours_db.
Qed.

(** ** The command line *)

Lemma init_db_table (d : database) : ∃ t, db (init_db d) = Some t.
Proof. destruct d; simpl; eauto. Qed.

Lemma start_time_not_exit l now t c :
  status (start_time l now (Some t)) ≠ SystemExit c.
Proof.
  by destruct (start_time_cases l now t)
    as [[_ ->] | [[_ (t' & _ & ->)] | (_ & _ & ->)]].
Qed.

Lemma stop_time_returns l now t :
  status (stop_time l now (Some t)) = Returned.
Proof. unfold stop_time. by destruct (rowcount l t =? 0)%nat. Qed.

Lemma get_hours_not_exit m t c :
  status (get_hours m (Some t)) ≠ SystemExit c.
Proof.
  unfold get_hours. destruct (fetch_hours m t) as [| x xs]; [done |].
  cbn [status]. generalize (x :: xs). intros rs.
  induction rs as [| [l [h |]] rs IH]; simpl; done.
Qed.

Lemma month_check (m : Z) :
  (Z.eqb m 0 || negb (Z.leb 1 m && Z.leb m 12))%bool = true ↔ ¬ (1 ≤ m ≤ 12).
Proof.
  destruct (Z.eqb_spec m 0), (Z.leb_spec 1 m), (Z.leb_spec m 12);
    simpl; split; intros; try done; lia.
Qed.

Lemma main_exit_one (a : args.Namespace) (now : datetime) (d : database) :
  status (main a now d) = SystemExit 1 ↔ rejected a.
Proof.
  destruct (init_db_table d) as [t Ht]. unfold main, rejected. rewrite Ht.
  destruct (args.action a).
  - destruct (String.eqb_spec (args.label a) "") as [E | E]; [done |].
    pose proof (start_time_not_exit (args.label a) now t 1). by split.
  - destruct (String.eqb_spec (args.label a) "") as [E | E]; [done |].
    rewrite stop_time_returns. by split.
  - pose proof (month_check (args.month a)) as Hm.
    destruct (_ || _)%bool.
    + split; [| done]. intros _. by apply Hm.
    + pose proof (get_hours_not_exit (args.month a) t 1).
      split; [done |]. intros Hr. by apply Hm in Hr.
Qed.

Lemma main_rejected (a : args.Namespace) (now : datetime) (d : database) :
  rejected a →
  db (main a now d) = db (init_db d)
  ∧ length (stdout (main a now d)) = 1%nat.
Proof.
  unfold main, rejected.
  destruct (args.action a).
  - intros ->. by simpl.
  - intros ->. by simpl.
  - intros Hr. apply month_check in Hr. by rewrite Hr.
Qed.

(** X9: [main] leaves through [sys.exit(1)] exactly for the parsed command
    lines it turns away (an empty label for start and stop, a month that
    is 0 or outside 1..12 for hours); it has then printed one line and
    done nothing to the file beyond [init_db]. *)
Theorem main_exit_one_iff_rejected
    (a : args.Namespace) (now : datetime) (d : database) :
  (status (main a now d) = SystemExit 1 ↔ rejected a)
  ∧ (rejected a →
     db (main a now d) = db (init_db d)
     ∧ length (stdout (main a now d)) = 1%nat).
Proof.
  split; [apply main_exit_one | apply main_rejected].
Qed.

Lemma print_hours_status (results : list (string * option Q)) :
  (fst (print_hours results) = Returned
   ∧ ∀ l, (l, None) ∉ results)
  ∨ (fst (print_hours results) = Raised TypeError
     ∧ ∃ l, (l, None) ∈ results).
Proof.
  induction results as [| [l [h |]] rest IH]; simpl.
  - left. split; [done |]. intros l Hl. by apply elem_of_nil in Hl.
  - destruct IH as [[-> Hno] | [-> (l' & Hl')]].
    + left. split; [done |]. intros l' Hl'.
      apply elem_of_cons in Hl' as [[=] | Hl']. by apply (Hno l').
    + right. split; [done |]. exists l'. by right.
  - right. split; [done |]. exists l. left.
Qed.

Lemma get_hours_status (m : Z) (t : table) :
  (status (get_hours m (Some t)) = Returned
   ∧ ∀ l, (l, None) ∉ fetch_hours m t)
  ∨ (status (get_hours m (Some t)) = Raised TypeError
     ∧ ∃ l, (l, None) ∈ fetch_hours m t).
Proof.
  unfold get_hours. destruct (fetch_hours m t) as [| x xs] eqn:E.
  - left. split; [done |]. intros l Hl. by apply elem_of_nil in Hl.
  - cbn [status]. apply print_hours_status.
Qed.

Ltac in_list := rewrite !elem_of_cons; tauto.

(** X8: how [main] can end.  It returns, leaves through [sys.exit(1)], or
    ends in one of two exceptions: [OperationalError], exactly when a
    start with a non-empty label finds no open session of it and a table
    that takes no more rows; [TypeError], exactly when the hours of a
    valid month have a label whose total is NULL.  Either way the file has
    the table afterwards. *)
Theorem main_outcomes (a : args.Namespace) (now : datetime) (d : database) :
  ∃ t, db (init_db d) = Some t
    ∧ status (main a now d)
        ∈ [Returned; SystemExit 1; Raised OperationalError; Raised TypeError]
    ∧ (status (main a now d) = Raised OperationalError
       ↔ args.action a = start ∧ args.label a ≠ ""
         ∧ (∀ e, e ∈ rows t → ¬ active (args.label a) e)
         ∧ rowids_exhausted t)
    ∧ (status (main a now d) = Raised TypeError
       ↔ args.action a = hours ∧ 1 ≤ args.month a ≤ 12
         ∧ ∃ l, (l, None) ∈ fetch_hours (args.month a) t)
    ∧ ∃ t', db (main a now d) = Some t'.
Proof.
  destruct (init_db_table d) as [t Ht]. exists t. split; [done |].
  unfold main. rewrite Ht.
  destruct (args.action a).
  - destruct (String.eqb_spec (args.label a) "") as [E | E].
    + cbn [status db]. split; [in_list |].
      split; [split; [done | by intros (_ & ? & _)] |].
      split; [by split; [| intros (? & _)] | by exists t].
    + destruct (start_time_cases (args.label a) now t)
        as [[Hne ->] | [[Hnil (t' & Hins & ->)] | (Hnil & Hins & ->)]];
        cbn [status db].
      * split; [in_list |]. split; [split; [done |] |].
        { intros (_ & _ & Hno & _). by apply filter_active_nil in Hno. }
        split; [by split; [| intros (? & _)] | by exists t].
      * split; [in_list |]. split; [split; [done |] |].
        { intros (_ & _ & _ & Hex).
          apply (insert_entry_None (args.label a) now) in Hex. congruence. }
        split; [by split; [| intros (? & _)] | by exists t'].
      * split; [in_list |]. split; [split; [intros _ | done] |].
        { split; [done |]. split; [done |].
          split; [by apply filter_active_nil | by apply insert_entry_None in Hins]. }
        split; [by split; [| intros (? & _)] | by exists t].
  - assert (Hs : status (if String.eqb (args.label a) ""
                         then mk_result (SystemExit 1)
                                ["Error: Label (-l) is required for stop action"]
                                (Some t)
                         else stop_time (args.label a) now (Some t))
                 ∈ [Returned; SystemExit 1]).
    { destruct (String.eqb _ _); [in_list |].
      rewrite stop_time_returns. in_list. }
    split; [rewrite !elem_of_cons in *; tauto |].
    rewrite !elem_of_cons, elem_of_nil in Hs.
    split; [split; [intros Hr; rewrite Hr in Hs; by destruct Hs as [? | [? | ?]]
                   | by intros (? & _)] |].
    split; [split; [intros Hr; rewrite Hr in Hs; by destruct Hs as [? | [? | ?]]
                   | by intros (? & _)] |].
    destruct (String.eqb _ _); [by exists t |].
    rewrite stop_time_db. by eexists.
  - pose proof (month_check (args.month a)) as Hm.
    destruct (_ || _)%bool.
    + cbn [status db]. split; [in_list |].
      split; [by split; [| intros (? & _)] |].
      split; [| by exists t]. split; [done |].
      intros (_ & Hin & _). by destruct (proj1 Hm eq_refl).
    + assert (Hok : 1 ≤ args.month a ≤ 12).
      { destruct (decide (1 ≤ args.month a ≤ 12)) as [? | Hn]; [done |].
        by apply Hm in Hn. }
      rewrite get_hours_db.
      destruct (get_hours_status (args.month a) t)
        as [[-> Hno] | [-> Hex]].
      * split; [in_list |]. split; [by split; [| intros (? & _)] |].
        split; [| by exists t]. split; [done |].
        intros (_ & _ & l & Hl). by destruct (Hno l).
      * split; [in_list |]. split; [by split; [| intros (? & _)] |].
        split; [| by exists t]. by split.
Qed.

(** X16: the defaults of the parser pass the checks of [main]: start and
    stop without [-l] work on the label "work", hours without [-m] on the
    month of the day, and [main] does not leave through [sys.exit(1)],
    whatever the other option is. *)
Theorem defaults_pass_validation
    (a : action) (l : option string) (m : option Z)
    (today now : datetime) (d : database) :
  (a ≠ hours →
   args.label (parse_args a None m today) = "work"
   ∧ status (main (parse_args a None m today) now d) ≠ SystemExit 1)
  ∧ (args.month (parse_args hours l None today) = month today
     ∧ status (main (parse_args hours l None today) now d) ≠ SystemExit 1).
Proof.
  split.
  - intros Ha. split; [done |]. rewrite main_exit_one.
    unfold rejected. by destruct a.
  - split; [done |]. rewrite main_exit_one. unfold rejected. simpl.
    destruct (datetime_fields today) as (_ & Hm & _). tauto.
Qed.

(** X10: the hours command reads only the month: on a file that has the
    table it leaves the store as it is, and neither the label nor the
    clock changes what it does. *)
Theorem main_hours_reads_only
    (l l' : string) (m : Z) (now now' : datetime) (t : table) :
  db (main (args.mk_Namespace hours l m) now (Some t)) = Some t
  ∧ main (args.mk_Namespace hours l m) now (Some t)
    = main (args.mk_Namespace hours l' m) now' (Some t).
Proof.
  unfold main. cbn [args.action args.month init_db db]. split; [| done].
  destruct (_ || _)%bool; [done |]. apply get_hours_db.
Qed.

(** ** Every store the program can reach *)

Lemma main_keeps_store_sound
    (a : args.Namespace) (now : datetime) (d : database) :
  (∀ t, d = Some t → one_open_per_label t ∧ rowids_unique t) →
  ∃ t', db (main a now d) = Some t'
        ∧ one_open_per_label t' ∧ rowids_unique t'.
Proof.
  intros Hd.
  assert (Hinit : ∃ t, db (init_db d) = Some t
                       ∧ one_open_per_label t ∧ rowids_unique t).
  { destruct d as [t |]; simpl.
    - exists t. split; [done | by apply Hd].
    - eexists. split; [done |]. split.
      + intros l. simpl. lia.
      + apply NoDup_nil_2. }
  destruct Hinit as (t & Ht & Ho & Hu). unfold main. rewrite Ht.
  destruct (args.action a).
  - destruct (String.eqb _ _); [by exists t |].
    destruct (start_time_cases (args.label a) now t)
      as [[_ ->] | [[E (t' & Hins & ->)] | (_ & _ & ->)]];
      [by exists t | | by exists t].
    exists t'. split; [done |].
    split; [by eapply one_open_insert | by eapply rowids_unique_insert].
  - destruct (String.eqb _ _); [by exists t |].
    rewrite stop_time_db. eexists. split; [done |].
    split; [by apply one_open_update | by apply rowids_unique_update].
  - destruct (_ || _)%bool; [by exists t |].
    rewrite get_hours_db. by exists t.
Qed.

Lemma run_keeps_store_sound
    (cmds : list (args.Namespace * datetime)) (t : table) :
  one_open_per_label t → rowids_unique t →
  ∃ t', run cmds (Some t) = Some t'
        ∧ one_open_per_label t' ∧ rowids_unique t'.
Proof.
  revert t. induction cmds as [| [a now] cmds IH]; intros t Ho Hu.
  - by exists t.
  - destruct (main_keeps_store_sound a now (Some t))
      as (t1 & E1 & Ho1 & Hu1); [by intros ? [= <-] |].
    unfold run in *. cbn [foldl fst snd]. rewrite E1. by apply IH.
Qed.

(** X11: every store the program reaches from a fresh file, through any
    sequence of one or more command lines at any times, has the table, at
    most one open row per label and pairwise distinct ids. *)
Theorem reachable_stores_sound
    (c : args.Namespace * datetime) (cmds : list (args.Namespace * datetime)) :
  ∃ t, run (c :: cmds) None = Some t
       ∧ one_open_per_label t ∧ rowids_unique t.
Proof.
  destruct (main_keeps_store_sound (fst c) (snd c) None)
    as (t1 & E1 & Ho1 & Hu1); [done |].
  unfold run. cbn [foldl]. rewrite E1.
  by apply run_keeps_store_sound.
Qed.

(** ** What start and stop do to the report *)

Lemma select_hours_open (param : string) (e : row) :
  time_entries.end_time e = None → select_hours param e = None.
Proof.
  intros He. unfold select_hours. rewrite He.
  by destruct (time_entries.start_time e).
Qed.

(** X12: starting a session changes no report: after [start], whether it
    was accepted or turned away, the query of every month gives what it
    gave before. *)
Theorem start_time_keeps_reports
    (l : string) (now : datetime) (m : Z) (t : table) :
  ∃ t', db (start_time l now (Some t)) = Some t'
        ∧ fetch_hours m t' = fetch_hours m t.
Proof.
  destruct (start_time_cases l now t)
    as [[_ ->] | [[_ (t' & Hins & ->)] | (_ & _ & ->)]];
    [by exists t | | by exists t].
  exists t'. split; [done |].
  apply insert_entry_Some in Hins as (i & _ & ->).
  unfold fetch_hours. cbn [rows].
  rewrite omap_app. cbn [omap list_omap].
  rewrite select_hours_open by done. by rewrite app_nil_r.
Qed.

Lemma select_hours_label param e x :
  select_hours param e = Some x → fst x = time_entries.label e.
Proof.
  unfold select_hours.
  destruct (time_entries.start_time e) as [s |],
           (time_entries.end_time e); try done.
  destruct (strftime_m s); [| done].
  destruct (String.eqb _ _); [| done]. by intros [= <-].
Qed.

Lemma selected_other_label param l l' now (rs : list row) :
  l' ≠ l →
  filter (fun x => fst x = l')
         (omap (select_hours param) (set_end_time l now <$> rs))
  = filter (fun x => fst x = l') (omap (select_hours param) rs).
Proof.
  intros Hne. induction rs as [| e rs IH]; [done |].
  rewrite fmap_cons. cbn [omap list_omap].
  destruct (decide (time_entries.label e = l)) as [Hl | Hl].
  - (* a row of [l]: whatever is selected carries the label [l] *)
    destruct (set_end_time_identity l now e) as (_ & Hl2 & _).
    destruct (select_hours param (set_end_time l now e)) as [x |] eqn:E1;
      destruct (select_hours param e) as [y |] eqn:E2;
      rewrite ?filter_cons;
      try (apply select_hours_label in E1);
      try (apply select_hours_label in E2);
      rewrite ?decide_False by congruence; done.
  - rewrite (set_end_time_other_label _ _ _ Hl).
    destruct (select_hours param e) as [y |];
      rewrite ?filter_cons, IH; done.
Qed.

(** X13: stopping label [l] changes the report of no other label: for
    [l' ≠ l] a pair [(l', v)] is in the query's result after the [stop]
    exactly when it was there before. *)
Theorem stop_time_keeps_other_reports
    (l l' : string) (now : datetime) (m : Z) (t : table) (v : option Q) :
  l' ≠ l →
  ∃ t', db (stop_time l now (Some t)) = Some t'
        ∧ ((l', v) ∈ fetch_hours m t' ↔ (l', v) ∈ fetch_hours m t).
Proof.
  intros Hne. rewrite stop_time_db. eexists. split; [done |].
  unfold fetch_hours, update_end_time. cbn [rows].
  set (xs' := omap _ (set_end_time l now <$> rows t)).
  set (xs := omap _ (rows t)).
  assert (Hf : filter (fun x => fst x = l') xs' = filter (fun x => fst x = l') xs)
    by by apply selected_other_label.
  assert (Hkeys : l' ∈ (xs'.*1) ↔ l' ∈ (xs.*1)).
  { assert (Hk : ∀ ys : list (string * option Q),
               l' ∈ (ys.*1) ↔ filter (fun x => fst x = l') ys ≠ []).
    { intros ys. rewrite list_elem_of_fmap. split.
      - intros (x & Hx & Hin) E.
        assert (Hx' : x ∈ filter (fun x => fst x = l') ys)
          by (apply list_elem_of_filter; done).
        rewrite E in Hx'. by apply elem_of_nil in Hx'.
      - intros E. destruct (filter _ ys) as [| x zs] eqn:E'; [done |].
        assert (Hx : x ∈ filter (fun x => fst x = l') ys) by (rewrite E'; left).
        apply list_elem_of_filter in Hx as [Hx Hin]. by exists x. }
    by rewrite !Hk, Hf. }
  assert (Hvals : values_for l' xs' = values_for l' xs)
    by (unfold values_for; by rewrite Hf).
  by rewrite !sorted_groups_elem, Hkeys, Hvals.
Qed.

(** ** What a session adds to the report *)

Lemma sum_ctx_inv (p : SumCtx) (vs : list (option Q)) :
  0 ≤ cnt p ∧ (cnt p = 0 → rSum p = 0%Q) →
  0 ≤ cnt (foldl sumStep p vs)
  ∧ (cnt (foldl sumStep p vs) = 0 → rSum (foldl sumStep p vs) = 0%Q).
Proof.
  revert p. induction vs as [| [x |] vs IH]; intros p Hp; [done | |].
  - apply IH. simpl. split; [lia |]. intros ?. lia.
  - by apply IH.
Qed.

Lemma sql_sum_snoc (vs : list (option Q)) (h : Q) :
  sql_sum (vs ++ [Some h]) = Some (fadd (default 0%Q (sql_sum vs)) h).
Proof.
  unfold sql_sum. rewrite foldl_app. cbn [foldl sumStep].
  destruct (sum_ctx_inv sumInit vs) as [Hc Hz]; [done |].
  set (p := foldl sumStep sumInit vs) in *.
  unfold sumFinalize. cbn [cnt rSum].
  destruct (Z.ltb_spec 0 (cnt p + 1)) as [_ | ?]; [| lia].
  destruct (Z.ltb_spec 0 (cnt p)) as [? | ?]; [done |].
  simpl. rewrite Hz by lia. done.
Qed.

(** X14: each completed session adds its hours to the total of its label:
    for a label with no open session, in a table that still takes rows,
    a start at [T1] and a stop at [T2], both readable, put the label into
    the report of the month of [T1] with its previous total (0 when it had
    none) plus the hours of the session, added in doubles; those hours are
    within half a millionth of an hour of [T2 - T1]. *)
Theorem session_adds_to_total (l : string) (T1 T2 : datetime) (t : table) :
  (∀ e, e ∈ rows t → ¬ active l e) →
  ¬ rowids_exhausted t →
  readable T1 → readable T2 →
  ∃ t2 h,
    db (stop_time l T2 (db (start_time l T1 (Some t)))) = Some t2
    ∧ hours_between T1 T2 = Some h
    ∧ (Qabs (h - elapsed_hours T1 T2) <= 1 # 2000000)%Q
    ∧ (l, Some (fadd (default 0%Q (total_hours (month T1) l t)) h))
        ∈ fetch_hours (month T1) t2.
Proof.
  intros Hopen Hroom Hr1 Hr2.
  destruct (datetime_fields T1) as (_ & Hm & _).
  destruct (start_time_cases l T1 t)
    as [[Hne _] | [[Hnil (t' & Hins & E)] | (_ & Hins & _)]];
    [by apply filter_active_nil in Hopen | |
     by apply insert_entry_None in Hins].
  rewrite E. cbn [db]. rewrite stop_time_db.
  apply insert_entry_Some in Hins as (i & Hi & ->).
  set (e1 := time_entries.mk_row i l (Some T1) None).
  set (e2 := time_entries.mk_row i l (Some T1) (Some T2)).
  set (t1 := mk_table (rows t ++ [e1]) i).
  assert (Ha : active l e1) by done.
  assert (Hrows : rows (update_end_time l T2 t1) = rows t ++ [e2]).
  { unfold update_end_time, t1. cbn [rows]. rewrite fmap_app. f_equal.
    - pose proof (update_end_time_none l T2 t Hopen) as Hu.
      by apply (f_equal rows) in Hu.
    - simpl. by rewrite (set_end_time_active l T2 e1 Ha). }
  destruct (hours_between T1 T2) as [h0 |] eqn:Eh;
    [| by apply hours_between_None in Eh].
  exists (update_end_time l T2 t1), h0.
  split; [done |]. split; [done |].
  split; [by apply hours_between_close |].
  apply fetch_hours_elem; [done |]. split.
  - exists e2. rewrite Hrows. split; [| done].
    apply elem_of_app. right. left.
  - unfold total_hours. rewrite Hrows, list.filter_app.
    rewrite (filter_cons _ e2), decide_True by done.
    rewrite filter_nil, fmap_app.
    assert (He2 : entry_hours <$> [e2] = [Some h0])
      by (unfold entry_hours; simpl; by rewrite Eh).
    by rewrite He2, sql_sum_snoc.
Qed.

(** ** The first run *)

(** X17: the first start on a fresh file creates the table and its first
    row: for a non-empty label [main] prints the started line and leaves a
    table with the single open row of id 1. *)
Theorem first_start_on_fresh_file (l : string) (m : Z) (now : datetime) :
  l ≠ "" →
  main (args.mk_Namespace start l m) now None =
    mk_result Returned ["Started timing for '" +:+ l +:+ "'"]
      (Some (mk_table [time_entries.mk_row 1 l (Some now) None] 1)).
Proof.
  intros Hl. apply String.eqb_neq in Hl. unfold main. simpl. by rewrite Hl.
Qed.

(** * The properties at sample inputs *)

Ltac each_row He :=
  repeat (apply elem_of_cons in He as [-> | He]);
  [.. | by apply elem_of_nil in He].

(** ** The exit status of start and stop *)

(** C1: the two session errors end with status 0.  [start -l work] on a
    store where the session of "work" is open prints its line
    "Error: Active session already exists ..." and [main] returns; so does
    [stop -l ghost] on a store without a session of "ghost", with
    "Error: No active session found ...".  The errors of the command line,
    a few lines further down in [main], print such a line and leave with
    [sys.exit(1)]. *)
Theorem session_errors_exit_zero :
  (∃ e, e ∈ rows store_open_work ∧ active "work" e)
  ∧ main (args.mk_Namespace start "work" 7) at_1130 (Some store_open_work) =
      mk_result Returned
        ["Error: Active session already exists for label 'work'"]
        (Some store_open_work)
  ∧ exit_code (status (main (args.mk_Namespace start "work" 7) at_1130
                            (Some store_open_work))) = 0
  ∧ (∀ e, e ∈ rows store_closed_work → ¬ active "ghost" e)
  ∧ main (args.mk_Namespace stop "ghost" 7) at_1130 (Some store_closed_work) =
      mk_result Returned
        ["Error: No active session found for label 'ghost'"]
        (Some store_closed_work)
  ∧ exit_code (status (main (args.mk_Namespace stop "ghost" 7) at_1130
                            (Some store_closed_work))) = 0
  ∧ main (args.mk_Namespace start "" 7) at_1130 (Some store_open_work) =
      mk_result (SystemExit 1)
        ["Error: Label (-l) is required for start action"]
        (Some store_open_work).
Proof.
  split; [| split; [| split; [| split; [| split; [| split]]]]];
    try reflexivity.
  - eexists. split; [left | done].
  - intros e He [Hl _]. each_row He. discriminate Hl.
Qed.

(** ** stop with several open rows *)

Lemma stop_time_duplicate_sessions_witness :
  stop_time "work" at_1130 (Some store_two_open) =
    mk_result Returned ["Stopped timing for 'work'."]
              (Some (update_end_time "work" at_1130 store_two_open))
  ∧ newly_closed store_two_open (update_end_time "work" at_1130 store_two_open)
    = length (filter (active "work") (rows store_two_open))
  ∧ filter (active "work")
           (rows (update_end_time "work" at_1130 store_two_open)) = [].
Proof.
  apply (stop_time_duplicate_sessions "work" at_1130 store_two_open).
  vm_compute. lia.
Defined.

(** C2 as stated fails: with two open rows of one label, [stop] closes
    both and reports what it reports for one. *)
Lemma stop_time_not_defensive :
  (1 < length (filter (active "work") (rows store_two_open)))%nat
  ∧ ¬ stop_is_defensive "work" at_1130 store_two_open.
Proof.
  split; [vm_compute; lia |].
  unfold stop_is_defensive.
  intros [(t' & Ht' & Hn) | [Hs | Ho]].
  - injection Ht' as <-. vm_compute in Hn. discriminate Hn.
  - by apply Hs.
  - by apply Ho.
Qed.

(** ** start *)

Lemma start_time_spec_witness :
  start_time "work" at_1130 (Some store_open_work) =
    mk_result Returned
      ["Error: Active session already exists for label 'work'"]
      (Some store_open_work)
  ∧ (∃ i, (∀ e, e ∈ rows store_closed_work → time_entries.id e < i)
          ∧ seq store_closed_work < i
          ∧ start_time "work" in_august (Some store_closed_work) =
              mk_result Returned ["Started timing for 'work'"]
                (Some (mk_table
                         (rows store_closed_work
                          ++ [time_entries.mk_row i "work" (Some in_august) None])
                         i)))
  ∧ start_time "writing" in_august (Some store_full) =
      mk_result (Raised OperationalError) [] (Some store_full).
Proof.
  split; [| split].
  - apply (proj1 (start_time_spec "work" at_1130 store_open_work)).
    eexists. split; [left | done].
  - apply (proj2 (start_time_spec "work" in_august store_closed_work)).
    + intros (e & He & _ & Hn). each_row He. discriminate Hn.
    + intros [Hs | (e & He & Hid)]; [discriminate Hs |].
      each_row He. vm_compute in Hid. by apply Hid.
  - apply (proj2 (start_time_spec "writing" in_august store_full)).
    + intros (e & He & Hl & _). each_row He. discriminate Hl.
    + by left.
Defined.

(** C3 as stated fails: no row of "writing" is open in a table that holds
    a row with the largest rowid, and the start of "writing" appends
    nothing: the INSERT raises, nothing is printed and the store is as it
    was. *)
Lemma start_time_full_table :
  (¬ ∃ e, e ∈ rows store_full ∧ time_entries.label e = "writing"
          ∧ time_entries.end_time e = None)
  ∧ start_time "writing" in_august (Some store_full) =
      mk_result (Raised OperationalError) [] (Some store_full)
  ∧ ¬ ∃ e' s, db (start_time "writing" in_august (Some store_full))
              = Some (mk_table (rows store_full ++ [e']) s).
Proof.
  split; [| split].
  - intros (e & He & Hl & _). each_row He. discriminate Hl.
  - reflexivity.
  - intros (e' & s & H). vm_compute in H. discriminate H.
Qed.

(** ** stop *)

Lemma stop_time_no_active_session_witness :
  stop_time "ghost" at_1130 (Some store_closed_work) =
    mk_result Returned ["Error: No active session found for label 'ghost'"]
              (Some store_closed_work).
Proof.
  apply (stop_time_no_active_session "ghost" at_1130 store_closed_work).
  intros e He [Hl _]. each_row He. discriminate Hl.
Defined.

Lemma stop_time_closes_all_witness :
  ∃ t',
    stop_time "work" at_1130 (Some store_two_open) =
      mk_result Returned ["Stopped timing for 'work'."] (Some t')
    ∧ length (rows t') = 2%nat.
Proof.
  destruct (stop_time_closes_all "work" at_1130 store_two_open
              ltac:(vm_compute; lia)) as (t' & Hr & Hlen & _).
  exists t'. split; [exact Hr | exact Hlen].
Defined.

(** ** The invariants *)

Lemma operations_preserve_invariants_witness :
  ∃ t', db (start_time "writing" at_1130 (Some store_open_work)) = Some t'
        ∧ one_open_per_label t' ∧ end_times_kept store_open_work t'.
Proof.
  apply (operations_preserve_invariants "writing" at_1130 7 store_open_work).
  - intros l. apply (length_filter (active l) (rows store_open_work)).
  - left.
Defined.

(** ** report *)

Lemma fetch_hours_spec_witness :
  NoDup ((fetch_hours 7 store_history).*1)
  ∧ Sorted String.le ((fetch_hours 7 store_history).*1)
  ∧ (∀ l v,
       (l, v) ∈ fetch_hours 7 store_history
       ↔ (∃ e, e ∈ rows store_history ∧ closed_in_month 7 e
               ∧ time_entries.label e = l)
         ∧ v = total_hours 7 l store_history)
  ∧ (∀ e s f,
       e ∈ rows store_history → time_entries.start_time e = Some s →
       time_entries.end_time e = Some f → readable s →
       (entry_hours e = None ↔ ¬ readable f)
       ∧ ∀ h, entry_hours e = Some h →
              (Qabs (h - elapsed_hours s f) <= 1 # 2000000)%Q)
  ∧ ((∀ e, e ∈ rows store_history → ¬ closed_in_month 7 e) →
     fetch_hours 7 store_history = []
     ∧ get_hours 7 (Some store_history) =
         mk_result Returned ["No entries found for month " +:+ str 7]
                   (Some store_history)).
Proof.
  apply (fetch_hours_spec 7 store_history). lia.
Defined.

(** C5 as stated fails, twice.  The session from 09:00 to 11:30 lasts 5/2
    hours, and the query gives the double next below it,
    671088639/268435456 = 2.4999999962747097: the contribution is not the
    exact duration.  And the row of [store_year_end] has an [end_time], its
    [start_time] is in December, and the report of December is empty: the
    date functions do not read a time in the last half millisecond of
    year 9999. *)
Lemma hours_not_exact :
  (fetch_hours 7 store_closed_writing
     = [("writing", Some (671088639 # 268435456)%Q)]
   ∧ elapsed_hours at_0900 at_1130 == 5 # 2
   ∧ ¬ (671088639 # 268435456 == elapsed_hours at_0900 at_1130))%Q
  ∧ ((∃ e s, e ∈ rows store_year_end
             ∧ time_entries.start_time e = Some s ∧ month s = 12
             ∧ time_entries.end_time e ≠ None)
     ∧ fetch_hours 12 store_year_end = []).
Proof.
  split; [split; [| split] | split].
  - vm_compute. reflexivity.
  - reflexivity.
  - intros H. vm_compute in H. discriminate H.
  - eexists _, _. split; [left |]. by repeat split.
  - vm_compute. reflexivity.
Qed.

(** ** Round trip *)



(** ** Scenarios of the specification *)

(** [start -l writing] at 09:00, [stop -l writing] at 11:30, then
    [hours -m 7]. *)
Example scenario_writing :
  let d1 := db (main (parse_args start (Some "writing") None at_0900)
                     at_0900 None) in
  let d2 := db (main (parse_args stop (Some "writing") None at_1130)
                     at_1130 d1) in
  main (parse_args hours None (Some 7) at_1130) at_1130 d2
  = mk_result Returned
      [String "010" "Hours for month 7:"; "------------------------------";
       "writing: 2.50 hours"]
      d2.
Proof. vm_compute. reflexivity. Qed.

(** A session of seven and a half minutes: an eighth of an hour, which the
    query gives as the double next above 0.125, printed as 0.13. *)
Example scenario_eighth_of_an_hour :
  let d1 := db (main (parse_args start None None at_0900) at_0900 None) in
  let d2 := db (main (parse_args stop None None at_0907) at_0907 d1) in
  (elapsed_hours at_0900 at_0907 == 1 # 8)%Q
  ∧ stdout (main (parse_args hours None None at_0907) at_0907 d2)
    = [String "010" "Hours for month 7:"; "------------------------------";
       "work: 0.13 hours"].
Proof. split; [reflexivity | vm_compute; reflexivity]. Qed.

(** Two labels in one month, each with its own sum, in the order of the
    labels; July of another year counts for the same month. *)
Example scenario_two_labels :
  fetch_hours 7 store_history
    = [("work", Some (15 # 2)%Q); ("writing", Some (671088639 # 268435456)%Q)]
  ∧ stdout (get_hours 7 (Some store_history))
    = [String "010" "Hours for month 7:"; "------------------------------";
       "work: 7.50 hours"; "writing: 2.50 hours"].
Proof. split; vm_compute; reflexivity. Qed.

(** [start -l work] twice: the second run reports the active session and
    the store still has the one open row. *)
Example scenario_start_twice :
  let d1 := db (main (parse_args start None None at_0900) at_0900 None) in
  let r := main (parse_args start None None at_1130) at_1130 d1 in
  stdout r = ["Error: Active session already exists for label 'work'"]
  ∧ db r = Some store_open_work.
Proof. vm_compute. split; reflexivity. Qed.

(** A session left open in June and stopped in July counts for June: the
    start of July is turned away, and the report of July has nothing. *)
Example scenario_open_since_june :
  let d1 := db (main (parse_args start None None at_0900) at_0900
                     (Some store_open_since_june)) in
  let d2 := db (main (parse_args stop None None at_1130) at_1130 d1) in
  d1 = Some store_open_since_june
  ∧ stdout (main (parse_args hours None None at_1130) at_1130 d2)
    = ["No entries found for month 7"]
  ∧ stdout (main (parse_args hours None (Some 6) at_1130) at_1130 d2)
    = [String "010" "Hours for month 6:"; "------------------------------";
       "work: 13.50 hours"].
Proof. vm_compute. repeat split; reflexivity. Qed.

(** A month outside 1..12 and an empty label are turned away with status 1
    before the store is queried; an exception nobody catches ends the
    process with status 1 as well. *)
Example scenario_validation :
  exit_code (status (main (args.mk_Namespace hours "work" 13) at_0900 None)) = 1
  ∧ exit_code (status (main (args.mk_Namespace start "" 7) at_0900 None)) = 1
  ∧ status (main (args.mk_Namespace start "writing" 7) at_0900
                 (Some store_full)) = Raised OperationalError.
Proof. vm_compute. repeat split; reflexivity. Qed.

(** The format [.2f] at some doubles: a tie goes to the even digit, the
    sign stays when the magnitude rounds to zero. *)
Example format_2f_samples :
  format_2f (1 # 8) = "0.12"
  ∧ format_2f (33554433 # 268435456) = "0.13"
  ∧ format_2f (3 # 8) = "0.38"
  ∧ format_2f (671088639 # 268435456) = "2.50"
  ∧ format_2f (12345 # 10) = "1234.50"
  ∧ format_2f (-1 # 1000) = "-0.00"
  ∧ format_2f (-5 # 2) = "-2.50"
  ∧ format_2f 0 = "0.00".
Proof. vm_compute. repeat split; reflexivity. Qed.

(** The date functions at the sample times: the Julian day of 11:30 on
    1 July 2024 as a double, and the last instants of year 9999. *)
Example julianday_samples :
  julianday at_1130 = Some (5283868438779221 # 2147483648)%Q
  ∧ julianday at_0900 = Some (19683943 # 8)%Q
  ∧ hours_between at_0900 at_1130 = Some (671088639 # 268435456)%Q
  ∧ julianday last_instant = None
  ∧ strftime_m last_instant = None
  ∧ strftime_m at_0900 = Some "07".
Proof. vm_compute. repeat split; reflexivity. Qed.

(** ** The further properties at sample inputs *)

Lemma start_time_twice_witness :
  start_time "work" at_1130
    (db (start_time "work" at_0900 (Some store_closed_work))) =
    mk_result Returned
      ["Error: Active session already exists for label 'work'"]
      (db (start_time "work" at_0900 (Some store_closed_work))).
Proof.
  apply (start_time_twice "work" at_0900 at_1130 store_closed_work).
  reflexivity.
Defined.


Lemma stop_time_after_start_witness :
  ∃ t', stop_time "work" at_1130
          (db (start_time "work" at_0900 (Some store_closed_work))) =
          mk_result Returned ["Stopped timing for 'work'."] (Some t')
        ∧ filter (active "work") (rows t') = [].
Proof.
  apply (stop_time_after_start "work" at_0900 at_1130 store_closed_work).
  reflexivity.
Defined.

Lemma other_labels_untouched_witness :
  ∃ t', db (stop_time "work" at_1130 (Some store_history)) = Some t'
        ∧ filter (fun e => time_entries.label e ≠ "work") (rows t')
          = filter (fun e => time_entries.label e ≠ "work") (rows store_history).
Proof.
  apply (other_labels_untouched "work" at_1130 store_history).
  right. left.
Defined.

Lemma rows_never_removed_witness :
  ∃ t', db (stop_time "reading" at_1130 (Some store_history)) = Some t'
        ∧ (length (rows store_history) ≤ length (rows t'))%nat
        ∧ ∀ i e, rows store_history !! i = Some e →
            ∃ e', rows t' !! i = Some e' ∧ same_identity e e'.
Proof.
  apply (rows_never_removed "reading" at_1130 7 store_history).
  right. left.
Defined.

Lemma rowids_stay_unique_witness :
  ∃ t', db (start_time "work" in_august (Some store_history)) = Some t'
        ∧ rowids_unique t'.
Proof.
  apply (rowids_stay_unique "work" in_august 8 store_history).
  - unfold rowids_unique. vm_compute. apply (bool_decide_unpack _). by vm_compute.
  - left.
Defined.

Lemma main_exit_one_iff_rejected_witness :
  status (main (args.mk_Namespace hours "work" 13) at_0900
               (Some store_history)) = SystemExit 1
  ∧ db (main (args.mk_Namespace hours "work" 13) at_0900 (Some store_history))
    = db (init_db (Some store_history))
  ∧ length (stdout (main (args.mk_Namespace hours "work" 13) at_0900
                         (Some store_history))) = 1%nat.
Proof.
  destruct (main_exit_one_iff_rejected
              (args.mk_Namespace hours "work" 13) at_0900 (Some store_history))
    as [Hiff Hrej].
  assert (Hr : rejected (args.mk_Namespace hours "work" 13))
    by (unfold rejected; simpl; lia).
  split; [by apply Hiff | by apply Hrej].
Defined.

Lemma main_outcomes_witness :
  status (main (args.mk_Namespace start "writing" 7) at_0900 (Some store_full))
    = Raised OperationalError.
Proof.
  destruct (main_outcomes (args.mk_Namespace start "writing" 7) at_0900
              (Some store_full)) as (t & Ht & _ & Hop & _).
  injection Ht as <-. apply Hop.
  split; [done |]. split; [done |]. split; [| by left].
  intros e He [Hl _]. each_row He. discriminate Hl.
Defined.

Lemma session_adds_to_total_witness :
  ∃ t2 h,
    db (stop_time "work" at_0907
          (db (start_time "work" at_0900 (Some store_history)))) = Some t2
    ∧ hours_between at_0900 at_0907 = Some h
    ∧ (Qabs (h - elapsed_hours at_0900 at_0907) <= 1 # 2000000)%Q
    ∧ ("work",
       Some (fadd (default 0%Q (total_hours (month at_0900) "work"
                                            store_history)) h))
        ∈ fetch_hours (month at_0900) t2.
Proof.
  apply (session_adds_to_total "work" at_0900 at_0907 store_history).
  - intros e He [Hl Hn]. each_row He; first [discriminate Hl | discriminate Hn].
  - intros [Hs | (e & He & Hid)]; [discriminate Hs |].
    each_row He; vm_compute in Hid; by apply Hid.
  - vm_compute. discriminate.
  - vm_compute. discriminate.
Defined.

Lemma defaults_pass_validation_witness :
  status (main (parse_args stop None None at_0900) at_1130 None)
    ≠ SystemExit 1
  ∧ status (main (parse_args hours (Some "") None at_0900) at_1130 None)
    ≠ SystemExit 1.
Proof.
  split.
  - apply (proj1 (defaults_pass_validation stop None None at_0900 at_1130 None)).
    discriminate.
  - apply (proj2 (defaults_pass_validation stop (Some "") None
                    at_0900 at_1130 None)).
Defined.

Lemma stop_time_keeps_other_reports_witness :
  ∃ t', db (stop_time "reading" at_1130 (Some store_history)) = Some t'
        ∧ (("work", Some (15 # 2)%Q) ∈ fetch_hours 7 t'
           ↔ ("work", Some (15 # 2)%Q) ∈ fetch_hours 7 store_history).
Proof.
  apply (stop_time_keeps_other_reports "reading" "work").
  discriminate.
Defined.

Lemma get_hours_no_entries_iff_witness :
  stdout (get_hours 9 (Some store_history))
    = ["No entries found for month " +:+ str 9]
  ↔ ∀ e, e ∈ rows store_history → ¬ closed_in_month 9 e.
Proof.
  apply (get_hours_no_entries_iff 9 store_history). lia.
Defined.

Lemma first_start_on_fresh_file_witness :
  main (args.mk_Namespace start "work" 7) at_0900 None =
    mk_result Returned ["Started timing for 'work'"]
      (Some (mk_table [time_entries.mk_row 1 "work" (Some at_0900) None] 1)).
Proof.
  apply (first_start_on_fresh_file "work" 7 at_0900).
  discriminate.
Defined.

(** A session of several commands from a fresh file: two labels started,
    one start turned away, one stopped. *)
Example scenario_run :
  run [(parse_args start None None at_0900, at_0900);
       (parse_args start (Some "writing") None at_0900, at_0900);
       (parse_args start None None at_1130, at_1130);
       (parse_args stop (Some "writing") None at_1130, at_1130)]
      None
  = Some (mk_table
            [time_entries.mk_row 1 "work" (Some at_0900) None;
             time_entries.mk_row 2 "writing" (Some at_0900) (Some at_1130)]
            2).
Proof. vm_compute. reflexivity. Qed.
